(** * Pomodoro timer and task activation of the task board (App component)

    A shallow embedding of the stateful core of the [App] React component:
    the task list, the timer settings, the active task and the timer record,
    together with the event handlers and the timer effect that update them.

    React specifics that the embedding keeps:
    - a handler or an effect reads the values captured by the render it was
      created in (its closure); calling a state setter does not change them;
    - state setters only queue updates; the queue is applied in order once
      the handler has returned, updater functions being fed the pending
      value.

    The audio elements live in refs, outside React state; they are modelled
    apart from it, in [Sounds].
    JavaScript numbers are modelled as exact rationals extended with NaN and
    the two infinities: rounding, overflow and the sign of zero are not
    modelled. A string is the sequence of bytes of its UTF-8 encoding. *)

From Stdlib Require Import ZArith QArith Qround Lqa Bool List String Ascii Lia.
From Stdlib Require Import Permutation Sorted DecimalString DecimalZ.
From Stdlib Require Decimal DecimalPos.
Import ListNotations.

Set Implicit Arguments.

Close Scope Q_scope.
Open Scope string_scope.
Open Scope list_scope.

(* ================================================================== *)
(** ** JavaScript numbers and the [Number(...)] conversion            *)
(* ================================================================== *)

Module JS.

Local Open Scope Q_scope.

Inductive number : Type :=
| NaN
| Fin (q : Q)
| PosInf
| NegInf.

Definition of_Z (z : Z) : number := Fin (inject_Z z).

(** [a * b] *)
Definition mul (a b : number) : number :=
  match a, b with
  | NaN, _ | _, NaN => NaN
  | Fin x, Fin y => Fin (x * y)
  | Fin x, PosInf | PosInf, Fin x =>
      match (Qnum x ?= 0)%Z with Eq => NaN | Gt => PosInf | Lt => NegInf end
  | Fin x, NegInf | NegInf, Fin x =>
      match (Qnum x ?= 0)%Z with Eq => NaN | Gt => NegInf | Lt => PosInf end
  | PosInf, PosInf | NegInf, NegInf => PosInf
  | PosInf, NegInf | NegInf, PosInf => NegInf
  end.

(** [a - b] *)
Definition sub (a b : number) : number :=
  match a, b with
  | NaN, _ | _, NaN => NaN
  | Fin x, Fin y => Fin (x - y)
  | Fin _, PosInf => NegInf
  | Fin _, NegInf => PosInf
  | PosInf, PosInf => NaN
  | PosInf, _ => PosInf
  | NegInf, NegInf => NaN
  | NegInf, _ => NegInf
  end.

(** [a <= b]; every comparison with NaN is false. *)
Definition leb (a b : number) : bool :=
  match a, b with
  | NaN, _ | _, NaN => false
  | Fin x, Fin y => Qle_bool x y
  | NegInf, _ => true
  | _, PosInf => true
  | _, _ => false
  end.

(** [a < b] *)
Definition ltb (a b : number) : bool :=
  match a, b with
  | NaN, _ | _, NaN => false
  | Fin x, Fin y => negb (Qle_bool y x)
  | PosInf, _ => false
  | _, NegInf => false
  | _, _ => true
  end.

(** [a > b] *)
Definition gtb (a b : number) : bool := ltb b a.

(** [Math.max(a, b)]: NaN as soon as one argument is NaN. *)
Definition Math_max (a b : number) : number :=
  match a, b with
  | NaN, _ | _, NaN => NaN
  | _, _ => if ltb a b then b else a
  end.

(** [Number.isInteger(a)] *)
Definition isInteger (a : number) : bool :=
  match a with
  | Fin x => (Qnum x mod Zpos (Qden x) =? 0)%Z
  | _ => false
  end.

(** The values a settings field can hold: what JSON can store, or the
    string an input element reports. *)
Inductive value : Type :=
| Undefined
| Null
| Bool (b : bool)
| Num (n : number)
| Str (s : string).

(** *** StringToNumber *)

(** The StrWhiteSpaceChar of one byte: TAB, LF, VT, FF, CR, SP. *)
Definition isStrWhiteSpaceChar (c : ascii) : bool :=
  let n := N_of_ascii c in
  ((9 <=? n) && (n <=? 13) || (n =? 32))%N.

(** The StrWhiteSpaceChar of two bytes: U+00A0 (C2 A0). *)
Definition isWhiteSpace2 (a b : ascii) : bool :=
  ((N_of_ascii a =? 194) && (N_of_ascii b =? 160))%N.

(** The StrWhiteSpaceChar of three bytes: U+1680 (E1 9A 80), U+2000 to
    U+200A (E2 80 80 to E2 80 8A), U+2028 and U+2029 (E2 80 A8, E2 80 A9),
    U+202F (E2 80 AF), U+205F (E2 81 9F), U+3000 (E3 80 80) and U+FEFF
    (EF BB BF). *)
Definition isWhiteSpace3 (a b c : ascii) : bool :=
  let x := N_of_ascii a in
  let y := N_of_ascii b in
  let z := N_of_ascii c in
  ((x =? 225) && (y =? 154) && (z =? 128)
   || (x =? 226) && (y =? 128)
      && ((128 <=? z) && (z <=? 138) || (z =? 168) || (z =? 169) || (z =? 175))
   || (x =? 226) && (y =? 129) && (z =? 159)
   || (x =? 227) && (y =? 128) && (z =? 128)
   || (x =? 239) && (y =? 187) && (z =? 191))%N.

(** Drops the white space a list of bytes starts with; [two] and [three]
    recognise the characters of two and three bytes in the order in which
    the list presents their bytes. *)
Fixpoint dropWhiteSpace (two : ascii -> ascii -> bool)
                        (three : ascii -> ascii -> ascii -> bool)
                        (l : list ascii) : list ascii :=
  match l with
  | [] => []
  | a :: r =>
      if isStrWhiteSpaceChar a then dropWhiteSpace two three r
      else
        match r with
        | [] => l
        | b :: r2 =>
            if two a b then dropWhiteSpace two three r2
            else
              match r2 with
              | [] => l
              | c :: r3 =>
                  if three a b c then dropWhiteSpace two three r3 else l
              end
        end
  end.

(** [s.trim()], also the stripping that [Number] does: white space is
    dropped at the start, then at the end, where the reversed list shows
    the bytes of a character last to first. *)
Definition trim (l : list ascii) : list ascii :=
  rev (dropWhiteSpace (fun a b => isWhiteSpace2 b a)
                      (fun a b c => isWhiteSpace3 c b a)
                      (rev (dropWhiteSpace isWhiteSpace2 isWhiteSpace3 l))).

(** Value of [c] as a digit of the given radix. *)
Definition digitOf (radix : Z) (c : ascii) : option Z :=
  (let n := Z.of_N (N_of_ascii c) in
   let v := if (48 <=? n) && (n <=? 57) then Some (n - 48)
            else if (97 <=? n) && (n <=? 102) then Some (n - 87)
            else if (65 <=? n) && (n <=? 70) then Some (n - 55)
            else None in
   match v with
   | Some d => if d <? radix then Some d else None
   | None => None
   end)%Z.

(** Longest prefix of digits, and what follows it. *)
Fixpoint digits (radix : Z) (l : list ascii) : list Z * list ascii :=
  match l with
  | [] => ([], [])
  | c :: r =>
      match digitOf radix c with
      | Some d => let (ds, rest) := digits radix r in (d :: ds, rest)
      | None => ([], l)
      end
  end.

Definition valueOf (radix : Z) (ds : list Z) : Z :=
  fold_left (fun acc d => acc * radix + d)%Z ds 0%Z.

Definition isChar (c : ascii) (s : string) : bool :=
  existsb (Ascii.eqb c) (list_ascii_of_string s).

(** ExponentPart, or nothing, up to the end of the string. *)
Definition parseExponent (l : list ascii) : option Z :=
  match l with
  | [] => Some 0%Z
  | c :: r =>
      if isChar c "eE" then
        let '(sign, r') :=
          match r with
          | s :: r' => if isChar s "+" then (1%Z, r')
                       else if isChar s "-" then ((-1)%Z, r')
                       else (1%Z, r)
          | [] => (1%Z, r)
          end in
        match digits 10 r' with
        | ((_ :: _) as ds, []) => Some (sign * valueOf 10 ds)%Z
        | _ => None
        end
      else None
  end.

(** StrUnsignedDecimalLiteral *)
Definition parseUnsignedDecimal (l : list ascii) : option number :=
  if String.eqb (string_of_list_ascii l) "Infinity" then Some PosInf
  else
    let (ip, r1) := digits 10 l in
    let (fp, r2) :=
      match r1 with
      | c :: r => if isChar c "." then digits 10 r else ([], r1)
      | [] => ([], r1)
      end in
    match ip, fp with
    | [], [] => None
    | _, _ =>
        match parseExponent r2 with
        | Some e =>
            let m := (inject_Z (valueOf 10 ip)
                      + inject_Z (valueOf 10 fp)
                        / inject_Z (10 ^ Z.of_nat (List.length fp)))%Q in
            Some (Fin (Qred (m * Qpower 10 e)))
        | None => None
        end
    end.

Definition neg (a : number) : number :=
  match a with
  | NaN => NaN
  | Fin x => Fin (Qred (- x))
  | PosInf => NegInf
  | NegInf => PosInf
  end.

(** StrDecimalLiteral: an optional sign, then the unsigned literal. *)
Definition parseDecimal (l : list ascii) : option number :=
  match l with
  | c :: r =>
      if isChar c "+" then parseUnsignedDecimal r
      else if isChar c "-" then option_map neg (parseUnsignedDecimal r)
      else parseUnsignedDecimal l
  | [] => None
  end.

(** NonDecimalIntegerLiteral: 0x.., 0o.., 0b.. (no sign). *)
Definition parseNonDecimal (l : list ascii) : option number :=
  match l with
  | z :: p :: r =>
      if isChar z "0" then
        let radix := if isChar p "xX" then Some 16%Z
                     else if isChar p "oO" then Some 8%Z
                     else if isChar p "bB" then Some 2%Z
                     else None in
        match radix with
        | Some b =>
            match digits b r with
            | ((_ :: _) as ds, []) => Some (of_Z (valueOf b ds))
            | _ => None
            end
        | None => None
        end
      else None
  | _ => None
  end.

Definition StringToNumber (s : string) : number :=
  match trim (list_ascii_of_string s) with
  | [] => of_Z 0
  | l =>
      match parseNonDecimal l with
      | Some n => n
      | None =>
          match parseDecimal l with
          | Some n => n
          | None => NaN
          end
      end
  end.

(** [Number(v)] *)
Definition Number (v : value) : number :=
  match v with
  | Undefined => NaN
  | Null => of_Z 0
  | Bool b => if b then of_Z 1 else of_Z 0
  | Num n => n
  | Str s => StringToNumber s
  end.

End JS.

(* ================================================================== *)
(** ** Data model                                                     *)
(* ================================================================== *)

(** Task ids: the numbers of the built-in tasks, or the string that
    [crypto.randomUUID()] returns. Compared with [===]. *)
Inductive TaskId : Type :=
| NumId (n : Z)
| StrId (s : string).

Definition TaskId_eqb (a b : TaskId) : bool :=
  match a, b with
  | NumId n, NumId m => (n =? m)%Z
  | StrId s, StrId t => String.eqb s t
  | _, _ => false
  end.

Inductive Status : Type := todo | doing | done.

Definition Status_eqb (a b : Status) : bool :=
  match a, b with
  | todo, todo | doing, doing | done, done => true
  | _, _ => false
  end.

Record Task : Type := {
  id : TaskId;
  title : string;
  color : string;
  position : JS.number * JS.number;
  status : Status;
  dueDate : option string
}.

(** [{ ...task, status }] *)
Definition withStatus (task : Task) (st : Status) : Task :=
  {| id := id task; title := title task; color := color task;
     position := position task; status := st; dueDate := dueDate task |}.

(** [{ ...task, position }] *)
Definition withPosition (task : Task) (pos : JS.number * JS.number) : Task :=
  {| id := id task; title := title task; color := color task;
     position := pos; status := status task; dueDate := dueDate task |}.

Record Settings : Type := {
  pomodoroWork : JS.number;
  pomodoroBreak : JS.number;
  pomodoroSessions : JS.number
}.

(** The values of [timer.currentMode]. *)
Module Mode.
Inductive t : Type := pomodoro | pomodoroWork | pomodoroBreak.
End Mode.

Record Timer : Type := {
  currentMode : Mode.t;
  timeLeft : JS.number;
  isRunning : bool;
  sessionsLeft : JS.number;
  totalSessions : JS.number
}.

(** The [useState] cells of [App] that the timer logic touches. *)
Record AppState : Type := {
  tasks : list Task;
  timerSettings : Settings;
  activeTask : option Task;
  timer : Timer
}.

(* ================================================================== *)
(** ** State setters and the update queue                             *)
(* ================================================================== *)

(** One call of a state setter. [setTimer] is the call with a value,
    [setTimerWith] the call with an updater function; [setTasks] is only
    ever called with an updater. *)
Inductive SetState : Type :=
| setTasks (f : list Task -> list Task)
| setActiveTask (v : option Task)
| setTimer (v : Timer)
| setTimerWith (f : Timer -> Timer)
| setTimerSettings (v : Settings).

Definition applyUpdate (s : AppState) (u : SetState) : AppState :=
  match u with
  | setTasks f =>
      {| tasks := f (tasks s); timerSettings := timerSettings s;
         activeTask := activeTask s; timer := timer s |}
  | setActiveTask v =>
      {| tasks := tasks s; timerSettings := timerSettings s;
         activeTask := v; timer := timer s |}
  | setTimer v =>
      {| tasks := tasks s; timerSettings := timerSettings s;
         activeTask := activeTask s; timer := v |}
  | setTimerWith f =>
      {| tasks := tasks s; timerSettings := timerSettings s;
         activeTask := activeTask s; timer := f (timer s) |}
  | setTimerSettings v =>
      {| tasks := tasks s; timerSettings := v;
         activeTask := activeTask s; timer := timer s |}
  end.

(** The queued updates of one handler run, applied in call order. *)
Definition flush (q : list SetState) (s : AppState) : AppState :=
  fold_left applyUpdate q s.

(** A handler reads the render it closes over and queues updates; when it
    runs, that render shows the current state. *)
Definition Handler : Type := AppState -> list SetState.

Definition dispatch (h : Handler) (s : AppState) : AppState :=
  flush (h s) s.

(* ================================================================== *)
(** ** Initial state                                                  *)
(* ================================================================== *)

Definition getFromLocalStorage {A : Type} (item : option A) (defaultValue : A) : A :=
  match item with
  | Some v => v
  | None => defaultValue
  end.

(** The three built-in tasks. *)
Definition task1 : Task :=
  {| id := NumId 1; title := "レポート作成"; color := "#ffec99";
     position := (JS.of_Z 100, JS.of_Z 80); status := todo;
     dueDate := Some "2025-10-20" |}.

Definition task2 : Task :=
  {| id := NumId 2; title := "アプリのUI設計"; color := "#a5d4d4";
     position := (JS.of_Z (-50), JS.of_Z 120); status := todo;
     dueDate := Some "2025-10-22" |}.

Definition task3 : Task :=
  {| id := NumId 3; title := "買い物"; color := "#d4a5a5";
     position := (JS.of_Z (-150), JS.of_Z (-40)); status := done;
     dueDate := None |}.

Definition defaultTasks : list Task := [task1; task2; task3].

Definition defaultSettings : Settings :=
  {| pomodoroWork := JS.of_Z 25; pomodoroBreak := JS.of_Z 5;
     pomodoroSessions := JS.of_Z 4 |}.

(** The timer record both the initial render and [resetTimer] build. *)
Definition idleTimer (st : Settings) : Timer :=
  {| currentMode := Mode.pomodoro;
     timeLeft := JS.mul (pomodoroWork st) (JS.of_Z 60);
     isRunning := false;
     sessionsLeft := pomodoroSessions st;
     totalSessions := pomodoroSessions st |}.

Definition initialState (storedTasks : option (list Task))
                        (storedSettings : option Settings) : AppState :=
  let st := getFromLocalStorage storedSettings defaultSettings in
  {| tasks := getFromLocalStorage storedTasks defaultTasks;
     timerSettings := st;
     activeTask := None;
     timer := idleTimer st |}.

(* ================================================================== *)
(** ** Handlers of [App]                                              *)
(* ================================================================== *)

Definition handleUpdateStatus (taskId : TaskId) (st : Status) : list SetState :=
  setTasks (map (fun task =>
                   if TaskId_eqb (id task) taskId then withStatus task st else task))
  :: (if Status_eqb st doing then [] else [setActiveTask None]).

Definition resetTimer : Handler := fun render =>
  [setTimer (idleTimer (timerSettings render))]
  ++ match activeTask render with
     | Some active =>
         [setTasks (map (fun task =>
                           if TaskId_eqb (id task) (id active)
                           then withStatus task todo else task))]
     | None => []
     end
  ++ [setActiveTask None].

(** The form state of [AddTaskForm]. *)
Record NewTask : Type := {
  nt_title : string;
  nt_color : string;
  nt_dueDate : string
}.

(** [uuid] is the result of [crypto.randomUUID()]. *)
Definition handleAddTask (uuid : string) (newTask : NewTask) : list SetState :=
  match JS.trim (list_ascii_of_string (nt_title newTask)) with
  | [] => []
  | _ =>
      let newTaskObject :=
        {| id := StrId uuid; title := nt_title newTask; color := nt_color newTask;
           position := (JS.of_Z 0, JS.of_Z 0); status := todo;
           dueDate := if String.eqb (nt_dueDate newTask) EmptyString
                      then None else Some (nt_dueDate newTask) |} in
      [setTasks (fun currentTasks => currentTasks ++ [newTaskObject])]
  end.

Definition handleUpdatePosition (taskId : TaskId) (pos : JS.number * JS.number)
  : list SetState :=
  [setTasks (map (fun task =>
                    if TaskId_eqb (id task) taskId then withPosition task pos else task))].

Definition handleDeleteTask (taskId : TaskId) : list SetState :=
  [setTasks (filter (fun task => negb (TaskId_eqb (id task) taskId)))].

Definition startTimer (task : Task) (mode : string) : Handler := fun render =>
  match activeTask render with
  | Some active =>
      if negb (TaskId_eqb (id active) (id task))
      then handleUpdateStatus (id active) todo else []
  | None => []
  end
  ++ handleUpdateStatus (id task) doing
  ++ [setActiveTask (Some task)]
  ++ [setTimer
        (if String.eqb mode "pomodoro"
         then {| currentMode := Mode.pomodoroWork;
                 timeLeft := JS.mul (pomodoroWork (timerSettings render)) (JS.of_Z 60);
                 sessionsLeft := pomodoroSessions (timerSettings render);
                 totalSessions := pomodoroSessions (timerSettings render);
                 isRunning := true |}
         else {| currentMode := currentMode (timer render);
                 timeLeft := timeLeft (timer render);
                 sessionsLeft := sessionsLeft (timer render);
                 totalSessions := totalSessions (timer render);
                 isRunning := true |})].

Definition togglePauseTimer : list SetState :=
  [setTimerWith (fun t =>
     {| currentMode := currentMode t; timeLeft := timeLeft t;
        isRunning := negb (isRunning t);
        sessionsLeft := sessionsLeft t; totalSessions := totalSessions t |})].

(** The [onComplete] prop of [TimerControl], which is rendered only while
    [activeTask] is set. *)
Definition onComplete : Handler := fun render =>
  match activeTask render with
  | Some active => handleUpdateStatus (id active) done ++ resetTimer render
  | None => []
  end.

(** The [onReset] prop of [TimerControl]. *)
Definition onReset : Handler := resetTimer.

(** *** The timer effect *)

(** Body of the timer [useEffect], run after a render whose values it
    reads. It returns the updates it queues itself; when the timer runs and
    [timeLeft] is above zero it queues none and schedules the interval. *)
Definition timerEffect : Handler := fun render =>
  let t := timer render in
  if negb (isRunning t) then []
  else if JS.leb (timeLeft t) (JS.of_Z 0) then
    match currentMode t with
    | Mode.pomodoroWork =>
        let newSessionsLeft := JS.sub (sessionsLeft t) (JS.of_Z 1) in
        if JS.gtb newSessionsLeft (JS.of_Z 0) then
          [setTimerWith (fun t0 =>
             {| currentMode := Mode.pomodoroBreak;
                timeLeft := JS.mul (pomodoroBreak (timerSettings render)) (JS.of_Z 60);
                sessionsLeft := newSessionsLeft;
                isRunning := true;
                totalSessions := totalSessions t0 |})]
        else
          match activeTask render with
          | Some active => handleUpdateStatus (id active) todo
          | None => []
          end
          ++ resetTimer render
    | Mode.pomodoroBreak =>
        [setTimerWith (fun t0 =>
           {| currentMode := Mode.pomodoroWork;
              timeLeft := JS.mul (pomodoroWork (timerSettings render)) (JS.of_Z 60);
              sessionsLeft := sessionsLeft t;
              isRunning := true;
              totalSessions := totalSessions t0 |})]
    | Mode.pomodoro => []
    end
  else [].

(** Whether the effect has scheduled its one-second interval. *)
Definition intervalScheduled (s : AppState) : bool :=
  isRunning (timer s) && negb (JS.leb (timeLeft (timer s)) (JS.of_Z 0)).

(** The callback of that interval. *)
Definition intervalCallback : list SetState :=
  [setTimerWith (fun t =>
     {| currentMode := currentMode t;
        timeLeft := JS.sub (timeLeft t) (JS.of_Z 1);
        isRunning := isRunning t;
        sessionsLeft := sessionsLeft t; totalSessions := totalSessions t |})].

(** *** The settings dialog *)

Module SettingsModal.

(** The dialog's [localSettings]: a copy of the settings in which every
    edited field holds the string of its input element. *)
Record LocalSettings : Type := {
  pomodoroWork : JS.value;
  pomodoroBreak : JS.value;
  pomodoroSessions : JS.value
}.

Definition initialLocalSettings (settings : Settings) : LocalSettings :=
  let 'Build_Settings work break sessions := settings in
  {| pomodoroWork := JS.Num work;
     pomodoroBreak := JS.Num break;
     pomodoroSessions := JS.Num sessions |}.

(** The argument [handleSave] passes to [onSave]. *)
Definition savedSettings (localSettings : LocalSettings) : Settings :=
  Build_Settings
    (JS.Math_max (JS.of_Z 1) (JS.Number (pomodoroWork localSettings)))
    (JS.Math_max (JS.of_Z 1) (JS.Number (pomodoroBreak localSettings)))
    (JS.Math_max (JS.of_Z 1) (JS.Number (pomodoroSessions localSettings))).

(** [onSave] is [setTimerSettings]; [onClose] only hides the dialog. *)
Definition handleSave (localSettings : LocalSettings) : list SetState :=
  [setTimerSettings (savedSettings localSettings)].

End SettingsModal.

(* ================================================================== *)
(** ** Events and reachable states                                    *)
(* ================================================================== *)

(** What can happen to a mounted [App]: the clicks its buttons offer, the
    one-second interval, and a run of the timer effect. *)
Inductive Event : Type :=
| ClickStart (task : Task)      (* tomato button of a TaskItem, or double click on a StickyNote *)
| ClickDone (task : Task)       (* check mark of a TaskItem that is not done *)
| ClickRevert (task : Task)     (* revert arrow of a done TaskItem *)
| ClickDelete (task : Task)     (* bin of a TaskItem *)
| ClickPause                    (* pause / resume button of TimerControl *)
| ClickComplete                 (* complete button of TimerControl *)
| ClickReset                    (* reset button of TimerControl *)
| SubmitNewTask (uuid : string) (newTask : NewTask)
| DragStop (task : Task) (pos : JS.number * JS.number)
| SaveSettings (localSettings : SettingsModal.LocalSettings)
| IntervalFires
| EffectRuns.

Definition fire (e : Event) : AppState -> AppState :=
  match e with
  | ClickStart task => dispatch (startTimer task "pomodoro")
  | ClickDone task => dispatch (fun _ => handleUpdateStatus (id task) done)
  | ClickRevert task => dispatch (fun _ => handleUpdateStatus (id task) todo)
  | ClickDelete task => dispatch (fun _ => handleDeleteTask (id task))
  | ClickPause => dispatch (fun _ => togglePauseTimer)
  | ClickComplete => dispatch onComplete
  | ClickReset => dispatch onReset
  | SubmitNewTask uuid newTask => dispatch (fun _ => handleAddTask uuid newTask)
  | DragStop task pos => dispatch (fun _ => handleUpdatePosition (id task) pos)
  | SaveSettings ls => dispatch (fun _ => SettingsModal.handleSave ls)
  | IntervalFires => dispatch (fun _ => intervalCallback)
  | EffectRuns => dispatch timerEffect
  end.

(** When the rendered page offers the event. The buttons of a task are
    those of its entry in the rendered list; [TimerControl] is rendered only
    while a task is active; a new id is one no task carries, the active task
    included. The clicks are offered after any render, also one whose
    effect has not run yet. *)
Definition enabled (e : Event) (s : AppState) : Prop :=
  match e with
  | ClickStart task => In task (tasks s) /\ status task <> done
  | ClickDone task => In task (tasks s) /\ status task <> done
  | ClickRevert task => In task (tasks s) /\ status task = done
  | ClickDelete task => In task (tasks s)
  | ClickPause | ClickComplete | ClickReset => activeTask s <> None
  | SubmitNewTask uuid _ =>
      ~ In (StrId uuid) (map id (tasks s))
      /\ (forall active, activeTask s = Some active -> id active <> StrId uuid)
  | DragStop task _ => In task (tasks s) /\ status task <> done
  | SaveSettings _ => True
  | IntervalFires => intervalScheduled s = true
  | EffectRuns => True
  end.

Inductive reachable (init : AppState) : AppState -> Prop :=
| reachable_init : reachable init init
| reachable_step : forall s e,
    reachable init s -> enabled e s -> reachable init (fire e s).

(** Runs of events, for concrete scenarios. *)
Definition run (es : list Event) (s : AppState) : AppState :=
  fold_left (fun s e => fire e s) es s.

Fixpoint enabledAll (es : list Event) (s : AppState) : Prop :=
  match es with
  | [] => True
  | e :: es' => enabled e s /\ enabledAll es' (fire e s)
  end.

(** *** One second of the timer *)

(** The effect re-runs after every render it caused; [renders] bounds how
    many renders are followed. [None]: still not settled. *)
Fixpoint runEffects (renders : nat) (s : AppState) : option AppState :=
  match renders with
  | O => None
  | S n =>
      match timerEffect s with
      | [] => Some s
      | q => runEffects n (flush q s)
      end
  end.

(** One second passes: the interval, if scheduled, fires once, and the
    effect runs until it queues nothing more. *)
Definition tick (renders : nat) (s : AppState) : option AppState :=
  runEffects renders (if intervalScheduled s then fire IntervalFires s else s).

Fixpoint ticks (renders : nat) (n : nat) (s : AppState) : option AppState :=
  match n with
  | O => Some s
  | S k =>
      match tick renders s with
      | Some s' => ticks renders k s'
      | None => None
      end
  end.

(** The spec's vocabulary. *)
Inductive Phase : Type := idle | work | break.

Definition phase (s : AppState) : Phase :=
  match currentMode (timer s) with
  | Mode.pomodoro => idle
  | Mode.pomodoroWork => work
  | Mode.pomodoroBreak => break
  end.

Definition activeTaskId (s : AppState) : option TaskId :=
  option_map id (activeTask s).

(** Statuses of the registry entries with the given id. *)
Definition statusesOf (taskId : TaskId) (ts : list Task) : list Status :=
  map status (filter (fun task => TaskId_eqb (id task) taskId) ts).

Definition countDoing (ts : list Task) : nat :=
  List.length (filter (fun task => Status_eqb (status task) doing) ts).

(** First launch: nothing in local storage. *)
Definition firstLaunch : AppState := initialState None None.

(** *** Properties stated by the spec *)

(** The invariant of the spec on the active task. *)
Definition activeTaskInvariant (s : AppState) : Prop :=
  (activeTaskId s <> None <-> phase s <> idle)
  /\ (forall taskId, activeTaskId s = Some taskId ->
        exists task, In task (tasks s) /\ id task = taskId /\ status task = doing).

(** What the handlers keep of it. *)
Definition activeTaskDoing (s : AppState) : Prop :=
  forall active, activeTask s = Some active ->
    phase s <> idle
    /\ (forall task, In task (tasks s) -> id task = id active -> status task = doing).

(** A stored setting as the spec wants it. *)
Definition positiveInteger (n : JS.number) : bool :=
  JS.isInteger n && JS.leb (JS.of_Z 1) n.

(** The timer record [startTimer] builds in pomodoro mode. *)
Definition freshRun (st : Settings) : Timer :=
  {| currentMode := Mode.pomodoroWork;
     timeLeft := JS.mul (pomodoroWork st) (JS.of_Z 60);
     isRunning := true;
     sessionsLeft := pomodoroSessions st;
     totalSessions := pomodoroSessions st |}.

(* ================================================================== *)
(** ** Derived lists and the time display                             *)
(* ================================================================== *)

(** The comparator of the priority list: [(a, b) => b.position.y - a.position.y]. *)
Definition compareY (a b : Task) : JS.number :=
  JS.sub (snd (position b)) (snd (position a)).

(** [Array.prototype.sort] is stable, and for a comparator that orders the
    elements consistently its result is fixed by that: elements in comparator
    order, equal ones in their original order. Stable insertion computes it.
    A comparator value that is not below zero (NaN included) does not move
    an element in front of an earlier one. *)
Fixpoint insertSorted (compareFn : Task -> Task -> JS.number)
                      (x : Task) (l : list Task) : list Task :=
  match l with
  | [] => [x]
  | y :: r =>
      if JS.ltb (compareFn y x) (JS.of_Z 0)
      then y :: insertSorted compareFn x r
      else x :: l
  end.

Definition Array_sort (compareFn : Task -> Task -> JS.number)
                      (l : list Task) : list Task :=
  fold_right (insertSorted compareFn) [] l.

(** The priority list. *)
Definition sortedTasks (ts : list Task) : list Task :=
  Array_sort compareY
    (filter (fun t => Status_eqb (status t) todo || Status_eqb (status t) doing) ts).

(** The list of completed tasks. *)
Definition doneTasks (ts : list Task) : list Task :=
  filter (fun t => Status_eqb (status t) done) ts.

(** The tasks handed to [CartesianPlane]. *)
Definition planeTasks (ts : list Task) : list Task :=
  filter (fun t => negb (Status_eqb (status t) done)) ts.

(** [String(n)] for an integer [n] below 10^21 in magnitude: its decimal
    digits, with a minus sign when negative. *)
Definition String_of_Z (z : Z) : string :=
  NilZero.string_of_int (Z.to_int z).

(** [s.padStart(targetLength, fill)] for a one-character [fill]. *)
Definition padStart (targetLength : nat) (fill : ascii) (s : string) : string :=
  string_of_list_ascii (repeat fill (targetLength - String.length s)) ++ s.

(** [formatTime] on whole seconds (integers that a JavaScript number holds
    exactly, below 2^53 in magnitude): [Math.floor(seconds / 60)] is the
    floor quotient, [seconds % 60] the remainder with the sign of
    [seconds]. *)
Definition formatTime (seconds : Z) : string :=
  let mins := (seconds / 60)%Z in
  let secs := Z.rem seconds 60 in
  padStart 2 "0" (String_of_Z mins) ++ ":" ++ padStart 2 "0" (String_of_Z secs).

(* ================================================================== *)
(** ** Audio                                                          *)
(* ================================================================== *)

(** What the code reads and writes of an audio element. *)
Record AudioElement : Type := {
  paused : bool;
  currentTime : JS.number
}.

(** [new Audio(src)] *)
Definition newAudio : AudioElement :=
  {| paused := true; currentTime := JS.of_Z 0 |}.

(** [el.pause()] *)
Definition pause (el : AudioElement) : AudioElement :=
  {| paused := true; currentTime := currentTime el |}.

(** [el.play().catch(...)]: playback starts when the browser allows it;
    otherwise the promise is rejected, the rejection is caught and the
    element stays as it is. *)
Definition play (allowed : bool) (el : AudioElement) : AudioElement :=
  if allowed then {| paused := false; currentTime := currentTime el |} else el.

(** [el.currentTime = 0] *)
Definition rewind (el : AudioElement) : AudioElement :=
  {| paused := paused el; currentTime := JS.of_Z 0 |}.

(** The two refs; [None] is the [null] they hold before the mount effect. *)
Record Sounds : Type := {
  workSound : option AudioElement;
  breakSound : option AudioElement
}.

Definition unmountedSounds : Sounds :=
  {| workSound := None; breakSound := None |}.

(** The mount effect. *)
Definition mountSounds (_ : Sounds) : Sounds :=
  {| workSound := Some newAudio; breakSound := Some newAudio |}.

Definition stopAllSounds (a : Sounds) : Sounds :=
  {| workSound := option_map (fun el => rewind (pause el)) (workSound a);
     breakSound := option_map (fun el => rewind (pause el)) (breakSound a) |}.

(** The audio part of [startTimer]: both elements are played, paused and
    rewound, then [stopAllSounds] is called. *)
Definition unlockSounds (allowed : bool) (a : Sounds) : Sounds :=
  stopAllSounds
    {| workSound := option_map (fun el => rewind (pause (play allowed el))) (workSound a);
       breakSound := option_map (fun el => rewind (pause (play allowed el))) (breakSound a) |}.

(** Body of the music [useEffect], run with the values of a render. *)
Definition bgmEffect (allowed : bool) (render : AppState) (a : Sounds) : Sounds :=
  if negb (isRunning (timer render)) then stopAllSounds a
  else
    match currentMode (timer render) with
    | Mode.pomodoroWork =>
        let a' := stopAllSounds a in
        {| workSound := option_map (play allowed) (workSound a');
           breakSound := breakSound a' |}
    | Mode.pomodoroBreak =>
        let a' := stopAllSounds a in
        {| workSound := workSound a';
           breakSound := option_map (play allowed) (breakSound a') |}
    | Mode.pomodoro => stopAllSounds a
    end.

(** The dependency array of the music effect: [timer.isRunning] and
    [timer.currentMode]. *)
Definition bgmDepsChanged (before after : AppState) : bool :=
  negb (Bool.eqb (isRunning (timer before)) (isRunning (timer after)))
  || match currentMode (timer before), currentMode (timer after) with
     | Mode.pomodoro, Mode.pomodoro
     | Mode.pomodoroWork, Mode.pomodoroWork
     | Mode.pomodoroBreak, Mode.pomodoroBreak => false
     | _, _ => true
     end.

(** What the handler of an event does to the audio elements itself:
    [startTimer] unlocks and stops, [resetTimer] stops, and the timer effect
    stops when it finds a running timer at zero (once more when it goes on
    to [resetTimer]; stopping twice is stopping once). *)
Definition handlerSounds (allowed : bool) (e : Event) (render : AppState)
                         (a : Sounds) : Sounds :=
  match e with
  | ClickStart _ => unlockSounds allowed a
  | ClickComplete | ClickReset => stopAllSounds a
  | EffectRuns =>
      if isRunning (timer render)
         && JS.leb (timeLeft (timer render)) (JS.of_Z 0)
      then stopAllSounds a else a
  | _ => a
  end.

(** An event on the page with its audio: the handler acts on the elements,
    the state updates are applied, and the music effect runs after the new
    render when one of its dependencies changed. *)
Definition fireWithSounds (allowed : bool) (e : Event) (sa : AppState * Sounds)
  : AppState * Sounds :=
  let (s, a) := sa in
  let a1 := handlerSounds allowed e s a in
  let s' := fire e s in
  (s', if bgmDepsChanged s s' then bgmEffect allowed s' a1 else a1).

(** After the first render both effects of the mount have run: the refs are
    filled and the music effect has seen the idle timer. *)
Definition mounted (init : AppState) : AppState * Sounds :=
  (init, bgmEffect true init (mountSounds unmountedSounds)).

Inductive reachableWithSounds (init : AppState) : AppState * Sounds -> Prop :=
| reachableWithSounds_init : reachableWithSounds init (mounted init)
| reachableWithSounds_step : forall sa e allowed,
    reachableWithSounds init sa -> enabled e (fst sa) ->
    reachableWithSounds init (fireWithSounds allowed e sa).

Definition playing (el : option AudioElement) : bool :=
  match el with
  | Some el => negb (paused el)
  | None => false
  end.

(** The state [s] with another remaining time. *)
Definition withTimeLeft (remaining : JS.number) (s : AppState) : AppState :=
  {| tasks := tasks s; timerSettings := timerSettings s;
     activeTask := activeTask s;
     timer := {| currentMode := currentMode (timer s);
                 timeLeft := remaining;
                 isRunning := isRunning (timer s);
                 sessionsLeft := sessionsLeft (timer s);
                 totalSessions := totalSessions (timer s) |} |}.

(** Settings of whole minutes and sessions. *)
Definition wholeSettings (workMinutes breakMinutes sessions : Z) : Settings :=
  {| pomodoroWork := JS.of_Z workMinutes;
     pomodoroBreak := JS.of_Z breakMinutes;
     pomodoroSessions := JS.of_Z sessions |}.


(** What identifies a task on the page besides its status and position. *)
Definition identityOf (t : Task) : TaskId * string * string * option string :=
  (id t, title t, color t, dueDate t).

(** The events that add or remove tasks. *)
Definition changesRegistry (e : Event) : bool :=
  match e with
  | SubmitNewTask _ _ | ClickDelete _ => true
  | _ => false
  end.

Definition isDragStop (e : Event) : bool :=
  match e with
  | DragStop _ _ => true
  | _ => false
  end.

(** A string of one-byte white space only, the empty string included. *)
Definition blank (s : string) : bool :=
  forallb JS.isStrWhiteSpaceChar (list_ascii_of_string s).

(** A string of white space only: a sequence of StrWhiteSpaceChar, each
    given by the bytes of its UTF-8 encoding. *)
Inductive WhiteSpaceOnly : list ascii -> Prop :=
| WhiteSpaceOnly_nil : WhiteSpaceOnly []
| WhiteSpaceOnly_1 : forall a r,
    JS.isStrWhiteSpaceChar a = true ->
    WhiteSpaceOnly r -> WhiteSpaceOnly (a :: r)
| WhiteSpaceOnly_2 : forall a b r,
    JS.isWhiteSpace2 a b = true ->
    WhiteSpaceOnly r -> WhiteSpaceOnly (a :: b :: r)
| WhiteSpaceOnly_3 : forall a b c r,
    JS.isWhiteSpace3 a b c = true ->
    WhiteSpaceOnly r -> WhiteSpaceOnly (a :: b :: c :: r).

(** A loop is heard only while the timer runs in the phase of that loop. *)
Definition soundsFollowTimer (sa : AppState * Sounds) : Prop :=
  (playing (workSound (snd sa)) = true ->
   isRunning (timer (fst sa)) = true /\ phase (fst sa) = work)
  /\ (playing (breakSound (snd sa)) = true ->
      isRunning (timer (fst sa)) = true /\ phase (fst sa) = break).

(** Every task with status [doing] is the active task. *)
Definition onlyActiveTaskDoing (s : AppState) : Prop :=
  forall x, In x (tasks s) -> status x = doing ->
    exists active, activeTask s = Some active /\ id x = id active.

(** The status buttons of the task list, pressed on a task other than the
    active one while a task is active. *)
Definition statusClickBesideActive (e : Event) (s : AppState) : Prop :=
  exists T active,
    (e = ClickDone T \/ e = ClickRevert T)
    /\ activeTask s = Some active /\ id active <> id T.

(* ================================================================== *)
(** ** Basic facts                                                    *)
(* ================================================================== *)

Lemma TaskId_eqb_eq (a b : TaskId) : TaskId_eqb a b = true <-> a = b.
Proof.
  destruct a as [n|x], b as [m|y]; simpl; split; intro H;
    try discriminate; try congruence.
  - apply Z.eqb_eq in H. now subst.
  - injection H as ->. apply Z.eqb_refl.
  - apply String.eqb_eq in H. now subst.
  - injection H as ->. apply String.eqb_refl.
Qed.

Lemma TaskId_eqb_refl (a : TaskId) : TaskId_eqb a a = true.
Proof. now apply TaskId_eqb_eq. Qed.

Lemma TaskId_eqb_neq (a b : TaskId) : TaskId_eqb a b = false <-> a <> b.
Proof.
  split.
  - intros H E. apply TaskId_eqb_eq in E. congruence.
  - intro H. destruct (TaskId_eqb a b) eqn:E; [|reflexivity].
    apply TaskId_eqb_eq in E. contradiction.
Qed.

Lemma flush_app (q1 q2 : list SetState) (s : AppState) :
  flush (q1 ++ q2) s = flush q2 (flush q1 s).
Proof. unfold flush. apply fold_left_app. Qed.

Lemma reachable_run (init s : AppState) (es : list Event) :
  reachable init s -> enabledAll es s -> reachable init (run es s).
Proof.
  revert s. induction es as [|e es IH]; intros s Hs Hen; simpl in *.
  - exact Hs.
  - destruct Hen as [He Hes]. apply IH; [|exact Hes].
    now apply reachable_step.
Qed.

Lemma firstLaunch_tasks : tasks firstLaunch = [task1; task2; task3].
Proof. reflexivity. Qed.

(** What the fields of a task become under the status update of
    [handleUpdateStatus] and [resetTimer]. *)
Lemma withStatus_id (task : Task) (st : Status) : id (withStatus task st) = id task.
Proof. reflexivity. Qed.

Lemma withStatus_status (task : Task) (st : Status) : status (withStatus task st) = st.
Proof. reflexivity. Qed.

Lemma in_map_status (taskId : TaskId) (st : Status) (ts : list Task) (x : Task) :
  In x (map (fun task => if TaskId_eqb (id task) taskId
                         then withStatus task st else task) ts) ->
  (id x = taskId /\ status x = st) \/ (id x <> taskId /\ In x ts).
Proof.
  intro H. apply in_map_iff in H. destruct H as (y & <- & Hy).
  destruct (TaskId_eqb (id y) taskId) eqn:E.
  - left. apply TaskId_eqb_eq in E. now split.
  - right. apply TaskId_eqb_neq in E. now split.
Qed.

(** Splits on whether a registry entry was hit by a status update. *)
Ltac entry_status H Hst Hne :=
  apply in_map_status in H; destruct H as [[_ Hst]|[Hne _]].

(* ================================================================== *)
(** ** complete()                                                     *)
(* ================================================================== *)

(** In any state with an active task, the complete button leaves every
    registry entry of that task with status [todo]: [resetTimer] still sees
    the active task of the render and queues its revert after the update to
    [done]. *)
Lemma onComplete_status (s : AppState) (active x : Task) :
  activeTask s = Some active ->
  In x (tasks (dispatch onComplete s)) ->
  id x = id active ->
  status x = todo.
Proof.
  intros Ha Hx Hid.
  unfold dispatch, onComplete, resetTimer in Hx. rewrite Ha in Hx.
  simpl in Hx.
  entry_status Hx Hst Hne; [exact Hst|].
  contradiction.
Qed.

(** C1: from the first launch, start task 1 and press complete. The spec
    asks for status [done]; the registry entry of task 1 ends with status
    [todo], while the timer does go back to idle with the active task
    cleared and the counters reset. *)
Theorem complete_after_start_leaves_todo :
  let s := run [ClickStart task1] firstLaunch in
  reachable firstLaunch s /\
  activeTaskId s = Some (NumId 1) /\ phase s = work /\
  enabled ClickComplete s /\
  let s' := fire ClickComplete s in
  statusesOf (NumId 1) (tasks s') = [todo] /\
  phase s' = idle /\ activeTaskId s' = None /\
  timer s' = idleTimer (timerSettings s).
Proof.
  cbv zeta. split; [|split; [|split; [|split]]].
  - apply reachable_run; [constructor|]. simpl.
    split; [|exact I]. split; [now left | discriminate].
  - reflexivity.
  - reflexivity.
  - simpl. discriminate.
  - repeat split; reflexivity.
Qed.

(* ================================================================== *)
(** ** Invariants of the reachable states                             *)
(* ================================================================== *)

Lemma activeTaskDoing_fire (e : Event) (s : AppState) :
  activeTaskDoing s -> enabled e s -> activeTaskDoing (fire e s).
Proof.
  intros Inv Hen active Hact.
  destruct e; simpl in Hen.
  - (* ClickStart *)
    unfold fire, dispatch, startTimer in *.
    destruct (activeTask s) as [a|] eqn:Ea;
      [destruct (TaskId_eqb (id a) (id task)) eqn:Eid|];
      simpl in Hact |- *; injection Hact as <-;
      (split; [unfold phase; simpl; discriminate|]);
      intros x Hx Hid; apply in_map_status in Hx;
      destruct Hx as [[_ Hst]|[Hne _]]; auto; contradiction.
  - (* ClickDone *) simpl in Hact. discriminate Hact.
  - (* ClickRevert *) simpl in Hact. discriminate Hact.
  - (* ClickDelete *)
    unfold fire, dispatch, handleDeleteTask in *. simpl in Hact |- *.
    destruct (Inv active Hact) as [Hph Hst]. split; [exact Hph|].
    intros x Hx. apply filter_In in Hx. apply Hst, Hx.
  - (* ClickPause *)
    unfold fire, dispatch, togglePauseTimer in *. simpl in Hact |- *.
    exact (Inv active Hact).
  - (* ClickComplete *)
    unfold fire, dispatch, onComplete, resetTimer in Hact.
    destruct (activeTask s) eqn:Ea; simpl in Hact; congruence.
  - (* ClickReset *)
    unfold fire, dispatch, onReset, resetTimer in Hact.
    destruct (activeTask s) eqn:Ea; simpl in Hact; congruence.
  - (* SubmitNewTask *)
    unfold fire, dispatch, handleAddTask in *.
    destruct (JS.trim _); simpl in Hact |- *.
    + exact (Inv active Hact).
    + destruct (Inv active Hact) as [Hph Hst]. split; [exact Hph|].
      intros x Hx Hid. apply in_app_or in Hx. destruct Hx as [Hx|[<-|[]]].
      * now apply Hst.
      * simpl in Hid. destruct Hen as [_ Hfresh].
        exfalso. apply (Hfresh active Hact). now symmetry.
  - (* DragStop *)
    unfold fire, dispatch, handleUpdatePosition in *. simpl in Hact |- *.
    destruct (Inv active Hact) as [Hph Hst]. split; [exact Hph|].
    intros x Hx Hid. apply in_map_iff in Hx. destruct Hx as (y & <- & Hy).
    destruct (TaskId_eqb (id y) (id task)); [|now apply Hst].
    simpl in *. now apply Hst.
  - (* SaveSettings *)
    unfold fire, dispatch in *. simpl in Hact |- *. exact (Inv active Hact).
  - (* IntervalFires *)
    unfold fire, dispatch in *. simpl in Hact |- *. exact (Inv active Hact).
  - (* EffectRuns *)
    unfold fire, dispatch, timerEffect, resetTimer in *.
    destruct (isRunning (timer s));
      [|simpl in Hact |- *; exact (Inv active Hact)].
    destruct (JS.leb (timeLeft (timer s)) (JS.of_Z 0));
      [|simpl in Hact |- *; exact (Inv active Hact)].
    destruct (currentMode (timer s)).
    + simpl in Hact |- *. exact (Inv active Hact).
    + destruct (JS.gtb _ _).
      * simpl in Hact |- *. destruct (Inv active Hact) as [_ Hst].
        split; [unfold phase; simpl; discriminate | exact Hst].
      * destruct (activeTask s) eqn:Ea; simpl in Hact; congruence.
    + simpl in Hact |- *. destruct (Inv active Hact) as [_ Hst].
      split; [unfold phase; simpl; discriminate | exact Hst].
Qed.

Lemma activeTaskDoing_reachable (init s : AppState) :
  activeTaskDoing init -> reachable init s -> activeTaskDoing s.
Proof.
  intros Hinit Hs. induction Hs as [|s e _ IH Hen]; [exact Hinit|].
  now apply activeTaskDoing_fire.
Qed.

(** C2, as amended: in every state reachable from a launch, an active task
    means that the timer is not idle, and every registry entry of the active
    task has status [doing]. *)
Theorem active_task_implies_running_and_doing :
  forall (storedTasks : option (list Task)) (storedSettings : option Settings)
         (s : AppState),
    reachable (initialState storedTasks storedSettings) s ->
    forall active, activeTask s = Some active ->
      phase s <> idle
      /\ (forall task, In task (tasks s) -> id task = id active ->
                       status task = doing).
Proof.
  intros storedTasks storedSettings s Hs.
  apply (activeTaskDoing_reachable (init := initialState storedTasks storedSettings));
    [|exact Hs].
  intros active Hact. discriminate Hact.
Qed.

Lemma reachable_after_start :
  reachable firstLaunch (run [ClickStart task1] firstLaunch).
Proof.
  apply reachable_run; [constructor|]. simpl.
  split; [|exact I]. split; [now left | discriminate].
Qed.

Lemma active_task_implies_running_and_doing_witness :
  phase (run [ClickStart task1] firstLaunch) <> idle
  /\ status (withStatus task1 doing) = doing.
Proof.
  destruct (@active_task_implies_running_and_doing None None
              (run [ClickStart task1] firstLaunch)
              reachable_after_start task1 eq_refl) as [Hph Hst].
  split; [exact Hph|].
  apply (Hst (withStatus task1 doing)); [now left | reflexivity].
Defined.

(** C2 fails as stated. After starting task 1 and marking it done from the
    task list, no task is active while the timer is still in its work phase;
    after starting task 1 and deleting it, the active task is no longer in
    the registry. *)
Lemma activeTaskInvariant_broken_by_done_and_delete :
  (let s := run [ClickStart task1; ClickDone (withStatus task1 doing)] firstLaunch in
   reachable firstLaunch s /\ activeTaskId s = None /\ phase s = work
   /\ ~ activeTaskInvariant s)
  /\
  (let s := run [ClickStart task1; ClickDelete (withStatus task1 doing)] firstLaunch in
   reachable firstLaunch s /\ activeTaskId s = Some (NumId 1)
   /\ statusesOf (NumId 1) (tasks s) = []
   /\ ~ activeTaskInvariant s).
Proof.
  split; cbv zeta.
  - split; [|split; [reflexivity|split; [reflexivity|]]].
    + apply reachable_run; [constructor|]. simpl.
      repeat split; try (now left); discriminate.
    + intros [[_ H] _]. apply H; [discriminate | reflexivity].
  - split; [|split; [reflexivity|split; [reflexivity|]]].
    + apply reachable_run; [constructor|]. simpl.
      repeat split; try (now left); discriminate.
    + intros [_ H]. destruct (H (NumId 1) eq_refl) as (x & Hin & Hid & _).
      simpl in Hin. destruct Hin as [<-|[<-|[]]]; discriminate Hid.
Qed.

(** C7: at most one task is meant to be [doing]. From the first launch:
    start task 1, revert the done task 3 to todo (which clears the active
    task although task 1 stays [doing]), start task 2. Tasks 1 and 2 are
    then both [doing]. The same happens when task 2 is marked done and a
    newly added task is started. *)
Theorem two_tasks_doing_reachable :
  (let s := run [ClickStart task1; ClickRevert task3; ClickStart task2] firstLaunch in
   reachable firstLaunch s
   /\ statusesOf (NumId 1) (tasks s) = [doing]
   /\ statusesOf (NumId 2) (tasks s) = [doing]
   /\ countDoing (tasks s) = 2)
  /\
  (let added := {| nt_title := "new"; nt_color := "#ffec99"; nt_dueDate := EmptyString |} in
   let task4 := {| id := StrId "uuid-4"; title := "new"; color := "#ffec99";
                   position := (JS.of_Z 0, JS.of_Z 0); status := todo;
                   dueDate := None |} in
   let s := run [ClickStart task1; ClickDone task2;
                 SubmitNewTask "uuid-4" added; ClickStart task4] firstLaunch in
   reachable firstLaunch s
   /\ statusesOf (NumId 1) (tasks s) = [doing]
   /\ statusesOf (StrId "uuid-4") (tasks s) = [doing]
   /\ countDoing (tasks s) = 2).
Proof.
  split; cbv zeta.
  - split; [|repeat split; reflexivity].
    apply reachable_run; [constructor|]. simpl.
    repeat split; try discriminate; auto.
  - split; [|repeat split; reflexivity].
    apply reachable_run; [constructor|]. simpl.
    repeat split; try discriminate; auto 6.
    intros [H|[H|[H|[]]]]; discriminate H.
Qed.

(* ================================================================== *)
(** ** Deleting the active task                                       *)
(* ================================================================== *)

Lemma filter_map_status (taskId other : TaskId) (st : Status) (ts : list Task) :
  filter (fun task => negb (TaskId_eqb (id task) taskId))
         (map (fun task => if TaskId_eqb (id task) other
                           then withStatus task st else task) ts)
  = map (fun task => if TaskId_eqb (id task) other
                     then withStatus task st else task)
        (filter (fun task => negb (TaskId_eqb (id task) taskId)) ts).
Proof.
  induction ts as [|x ts IH]; [reflexivity|]. simpl.
  assert (E : id (if TaskId_eqb (id x) other then withStatus x st else x) = id x)
    by (destruct (TaskId_eqb (id x) other); reflexivity).
  rewrite E. destruct (TaskId_eqb (id x) taskId); simpl; now rewrite IH.
Qed.

(** C3, as amended: deleting a task, active or not, only filters it out of
    the registry; timer, active task and settings stay as they were. A reset
    pressed afterwards gives the state that reset followed by the deletion
    gives. *)
Theorem delete_only_filters_registry :
  forall (s : AppState) (T : Task),
    let s' := fire (ClickDelete T) s in
    tasks s' = filter (fun task => negb (TaskId_eqb (id task) (id T))) (tasks s)
    /\ timer s' = timer s
    /\ activeTask s' = activeTask s
    /\ timerSettings s' = timerSettings s
    /\ fire ClickReset s' = fire (ClickDelete T) (fire ClickReset s).
Proof.
  intros s T. cbv zeta. repeat split.
  unfold fire, dispatch, onReset, resetTimer, handleDeleteTask.
  destruct s as [ts st [a|] tm]; simpl; [|reflexivity].
  now rewrite filter_map_status.
Qed.

(** C3 fails as stated: with task 1 active, deleting it leaves the timer in
    its work phase, running, with the active task still set, whereas reset
    brings the idle timer and no active task. *)
Lemma delete_active_task_differs_from_reset :
  let s := run [ClickStart task1] firstLaunch in
  let T := withStatus task1 doing in
  reachable firstLaunch s
  /\ activeTaskId s = Some (id T)
  /\ enabled (ClickDelete T) s
  /\ phase (fire (ClickDelete T) s) = work
  /\ isRunning (timer (fire (ClickDelete T) s)) = true
  /\ activeTaskId (fire (ClickDelete T) s) = Some (id T)
  /\ phase (fire ClickReset s) = idle
  /\ activeTaskId (fire ClickReset s) = None
  /\ timer (fire (ClickDelete T) s) <> timer (fire ClickReset s).
Proof.
  cbv zeta. split; [exact reachable_after_start|].
  repeat split; try reflexivity.
  - simpl. now left.
  - simpl. discriminate.
Qed.

(* ================================================================== *)
(** ** Saving the settings                                            *)
(* ================================================================== *)

Lemma Qle_bool_total (x y : Q) : Qle_bool x y = false -> Qle_bool y x = true.
Proof.
  intro H. apply Qle_bool_iff. apply Qlt_le_weak. apply Qnot_le_lt.
  intro Hle. apply Qle_bool_iff in Hle. congruence.
Qed.

Lemma Math_max_one (n : JS.number) :
  n <> JS.NaN ->
  JS.leb (JS.of_Z 1) (JS.Math_max (JS.of_Z 1) n) = true
  /\ (JS.leb n (JS.of_Z 1) = true -> JS.Math_max (JS.of_Z 1) n = JS.of_Z 1)
  /\ (JS.gtb n (JS.of_Z 1) = true -> JS.Math_max (JS.of_Z 1) n = n)
  /\ (JS.isInteger n = true -> JS.isInteger (JS.Math_max (JS.of_Z 1) n) = true).
Proof.
  intro Hn. destruct n as [|q| |]; try contradiction; simpl;
    try (repeat split; intros; (reflexivity || discriminate || assumption)).
  destruct (Qle_bool q (inject_Z 1)) eqn:E; simpl.
  - repeat split; intros; (reflexivity || discriminate).
  - repeat split; intros; try (reflexivity || discriminate || assumption).
    now apply Qle_bool_total.
Qed.

(** C4, as amended: the save is always accepted, and every field whose
    input converts to a number is stored as that number raised to at least
    1: the stored value is never below 1, it is exactly 1 for an input of at
    most 1, and it is the input itself, integer or not, above 1. *)
Theorem save_clamps_numeric_input_to_one :
  forall (s : AppState) (localSettings : SettingsModal.LocalSettings),
    let saved := SettingsModal.savedSettings localSettings in
    let clamped (input : JS.value) (stored : JS.number) :=
      JS.Number input <> JS.NaN ->
      JS.leb (JS.of_Z 1) stored = true
      /\ (JS.leb (JS.Number input) (JS.of_Z 1) = true -> stored = JS.of_Z 1)
      /\ (JS.gtb (JS.Number input) (JS.of_Z 1) = true -> stored = JS.Number input)
      /\ (JS.isInteger (JS.Number input) = true -> positiveInteger stored = true) in
    timerSettings (fire (SaveSettings localSettings) s) = saved
    /\ clamped (SettingsModal.pomodoroWork localSettings) (pomodoroWork saved)
    /\ clamped (SettingsModal.pomodoroBreak localSettings) (pomodoroBreak saved)
    /\ clamped (SettingsModal.pomodoroSessions localSettings) (pomodoroSessions saved).
Proof.
  intros s ls. cbv zeta. split; [reflexivity|].
  assert (H : forall input,
             JS.Number input <> JS.NaN ->
             let stored := JS.Math_max (JS.of_Z 1) (JS.Number input) in
             JS.leb (JS.of_Z 1) stored = true
             /\ (JS.leb (JS.Number input) (JS.of_Z 1) = true -> stored = JS.of_Z 1)
             /\ (JS.gtb (JS.Number input) (JS.of_Z 1) = true -> stored = JS.Number input)
             /\ (JS.isInteger (JS.Number input) = true -> positiveInteger stored = true)).
  { intros input Hn. cbv zeta.
    destruct (Math_max_one Hn) as (H1 & H2 & H3 & H4).
    repeat split; auto.
    intro Hi. unfold positiveInteger. now rewrite (H4 Hi), H1. }
  repeat split; apply H; assumption.
Qed.

Lemma save_clamps_numeric_input_to_one_witness :
  let localSettings :=
    {| SettingsModal.pomodoroWork := JS.Str "0";
       SettingsModal.pomodoroBreak := JS.Str EmptyString;
       SettingsModal.pomodoroSessions := JS.Num (JS.of_Z 3) |} in
  let saved := SettingsModal.savedSettings localSettings in
  pomodoroWork saved = JS.of_Z 1
  /\ pomodoroBreak saved = JS.of_Z 1
  /\ pomodoroSessions saved = JS.of_Z 3
  /\ positiveInteger (pomodoroSessions saved) = true.
Proof.
  cbv zeta.
  destruct (save_clamps_numeric_input_to_one firstLaunch
              {| SettingsModal.pomodoroWork := JS.Str "0";
                 SettingsModal.pomodoroBreak := JS.Str EmptyString;
                 SettingsModal.pomodoroSessions := JS.Num (JS.of_Z 3) |})
    as (_ & Hw & Hb & Hs).
  split; [|split; [|split]].
  - apply Hw; [discriminate | reflexivity].
  - apply Hb; [discriminate | reflexivity].
  - apply Hs; [discriminate | reflexivity].
  - apply Hs; [discriminate | reflexivity].
Defined.

(** C4 fails as stated: a string that is no number is stored as NaN, which
    is not at least 1, and a fractional input above 1 is stored as it is,
    which is no integer. *)
Lemma save_stores_NaN_and_fractions :
  (let saved := SettingsModal.savedSettings
                  {| SettingsModal.pomodoroWork := JS.Str "abc";
                     SettingsModal.pomodoroBreak := JS.Num (JS.of_Z 5);
                     SettingsModal.pomodoroSessions := JS.Undefined |} in
   pomodoroWork saved = JS.NaN
   /\ JS.leb (JS.of_Z 1) (pomodoroWork saved) = false
   /\ positiveInteger (pomodoroWork saved) = false
   /\ pomodoroSessions saved = JS.NaN)
  /\
  (let saved := SettingsModal.savedSettings
                  {| SettingsModal.pomodoroWork := JS.Str "2.5";
                     SettingsModal.pomodoroBreak := JS.Num (JS.of_Z 5);
                     SettingsModal.pomodoroSessions := JS.Num (JS.of_Z 4) |} in
   pomodoroWork saved = JS.Fin (5 # 2)
   /\ positiveInteger (pomodoroWork saved) = false).
Proof. repeat split; reflexivity. Qed.

(* ================================================================== *)
(** ** A full cycle                                                   *)
(* ================================================================== *)



(* ================================================================== *)
(** ** Starting a task                                                *)
(* ================================================================== *)

(** C6: with B active and A another task, starting A turns every registry
    entry of B to [todo] and every entry of A to [doing], changes no other
    entry, and makes A the active task. *)
Theorem start_other_task_demotes_active :
  forall (s : AppState) (A B : Task) (mode : string),
    activeTask s = Some B ->
    id A <> id B ->
    let s' := dispatch (startTimer A mode) s in
    tasks s' = map (fun x => if TaskId_eqb (id x) (id A) then withStatus x doing
                             else if TaskId_eqb (id x) (id B) then withStatus x todo
                             else x) (tasks s)
    /\ (forall x, In x (tasks s') -> id x = id B -> status x = todo)
    /\ (forall x, In x (tasks s') -> id x = id A -> status x = doing)
    /\ activeTask s' = Some A.
Proof.
  intros s A B mode HB Hne. cbv zeta.
  assert (Ht : tasks (dispatch (startTimer A mode) s) =
               map (fun x => if TaskId_eqb (id x) (id A) then withStatus x doing
                             else if TaskId_eqb (id x) (id B) then withStatus x todo
                             else x) (tasks s)).
  { unfold dispatch, startTimer. rewrite HB.
    assert (E : TaskId_eqb (id B) (id A) = false)
      by (apply TaskId_eqb_neq; congruence).
    rewrite E. simpl. rewrite map_map. apply map_ext. intro x.
    destruct (TaskId_eqb (id x) (id B)) eqn:EB; simpl.
    - apply TaskId_eqb_eq in EB. rewrite EB, E. reflexivity.
    - reflexivity. }
  split; [exact Ht|]. rewrite Ht.
  split; [|split].
  - intros x Hx Hid. apply in_map_iff in Hx. destruct Hx as (y & <- & _).
    destruct (TaskId_eqb (id y) (id A)) eqn:EA.
    + apply TaskId_eqb_eq in EA. simpl in Hid. congruence.
    + destruct (TaskId_eqb (id y) (id B)) eqn:EB; [reflexivity|].
      apply TaskId_eqb_neq in EB. contradiction.
  - intros x Hx Hid. apply in_map_iff in Hx. destruct Hx as (y & <- & _).
    destruct (TaskId_eqb (id y) (id A)) eqn:EA; [reflexivity|].
    destruct (TaskId_eqb (id y) (id B)) eqn:EB; simpl in Hid;
      apply TaskId_eqb_neq in EA; contradiction.
  - unfold dispatch, startTimer. rewrite HB.
    destruct (negb (TaskId_eqb (id B) (id A))); reflexivity.
Qed.

Lemma start_other_task_demotes_active_witness :
  let s := run [ClickStart task1] firstLaunch in
  let s' := fire (ClickStart task2) s in
  statusesOf (NumId 1) (tasks s) = [doing]
  /\ tasks s' = [withStatus task1 todo; withStatus task2 doing; task3]
  /\ activeTask s' = Some task2.
Proof.
  cbv zeta. split; [reflexivity|].
  destruct (@start_other_task_demotes_active
              (run [ClickStart task1] firstLaunch) task2 task1 "pomodoro"
              eq_refl ltac:(discriminate)) as (Ht & _ & _ & Ha).
  split; [exact Ht | exact Ha].
Defined.

(** C10: starting the task that is already active keeps its entries
    [doing], changes no other entry, keeps it the active task and restarts
    the run: work phase, running, full work duration, session counters from
    the current settings. *)
Theorem start_active_task_restarts_run :
  forall (s : AppState) (T active : Task),
    activeTask s = Some active ->
    id active = id T ->
    let s' := fire (ClickStart T) s in
    tasks s' = map (fun x => if TaskId_eqb (id x) (id T) then withStatus x doing
                             else x) (tasks s)
    /\ (forall x, In x (tasks s) -> id x = id T -> status x = doing ->
                  In x (tasks s'))
    /\ (forall x, In x (tasks s') -> id x = id T -> status x = doing)
    /\ activeTask s' = Some T
    /\ phase s' = work
    /\ isRunning (timer s') = true
    /\ timeLeft (timer s') = JS.mul (pomodoroWork (timerSettings s)) (JS.of_Z 60)
    /\ sessionsLeft (timer s') = pomodoroSessions (timerSettings s)
    /\ totalSessions (timer s') = pomodoroSessions (timerSettings s).
Proof.
  intros s T active Ha Hid. cbv zeta.
  assert (Hs : fire (ClickStart T) s =
               {| tasks := map (fun x => if TaskId_eqb (id x) (id T)
                                         then withStatus x doing else x) (tasks s);
                  timerSettings := timerSettings s;
                  activeTask := Some T;
                  timer := freshRun (timerSettings s) |}).
  { unfold fire, dispatch, startTimer. rewrite Ha, Hid, TaskId_eqb_refl.
    reflexivity. }
  rewrite Hs. simpl. repeat split.
  - intros x Hx Hi Hst. apply in_map_iff. exists x. split; [|exact Hx].
    apply TaskId_eqb_eq in Hi. rewrite Hi.
    destruct x; simpl in *. now subst.
  - intros x Hx Hi. entry_status Hx Hst Hne; [exact Hst | contradiction].
Qed.

Lemma start_active_task_restarts_run_witness :
  let s := run [ClickStart task1; IntervalFires; ClickPause] firstLaunch in
  let s' := fire (ClickStart (withStatus task1 doing)) s in
  timeLeft (timer s) = JS.of_Z 1499 /\ isRunning (timer s) = false
  /\ tasks s' = tasks s
  /\ timeLeft (timer s') = JS.of_Z 1500 /\ isRunning (timer s') = true.
Proof.
  cbv zeta. split; [reflexivity|]. split; [reflexivity|].
  destruct (@start_active_task_restarts_run
              (run [ClickStart task1; IntervalFires; ClickPause] firstLaunch)
              (withStatus task1 doing) task1 eq_refl eq_refl)
    as (Ht & _ & _ & _ & _ & Hrun & Htl & _).
  split; [exact Ht|]. split; [exact Htl | exact Hrun].
Defined.

(* ================================================================== *)
(** ** reset()                                                        *)
(* ================================================================== *)

(** C8: in any state, idle or not, reset gives the idle timer, not running,
    with the full work duration and both session counters taken from the
    current settings; no task is active afterwards, and the entries of the
    task that was active have status [todo], the others being unchanged. *)
Theorem reset_returns_to_idle :
  forall (s : AppState),
    let s' := fire ClickReset s in
    phase s' = idle
    /\ isRunning (timer s') = false
    /\ timeLeft (timer s') = JS.mul (pomodoroWork (timerSettings s)) (JS.of_Z 60)
    /\ sessionsLeft (timer s') = pomodoroSessions (timerSettings s)
    /\ totalSessions (timer s') = pomodoroSessions (timerSettings s)
    /\ timerSettings s' = timerSettings s
    /\ activeTask s' = None
    /\ tasks s' = match activeTask s with
                  | Some active =>
                      map (fun x => if TaskId_eqb (id x) (id active)
                                    then withStatus x todo else x) (tasks s)
                  | None => tasks s
                  end
    /\ (forall active x, activeTask s = Some active ->
                         In x (tasks s') -> id x = id active ->
                         status x = todo /\ status x <> done).
Proof.
  intro s. cbv zeta.
  unfold fire, dispatch, onReset, resetTimer.
  destruct (activeTask s) as [a|] eqn:Ea; simpl;
    repeat (split; [reflexivity|]); intros active x Hact Hx Hid;
    [|discriminate Hact].
  injection Hact as <-. entry_status Hx Hst Hne; [|contradiction].
  rewrite Hst. split; [reflexivity | discriminate].
Qed.

Lemma reset_returns_to_idle_witness :
  let s := run [ClickStart task1; IntervalFires] firstLaunch in
  let s' := fire ClickReset s in
  statusesOf (NumId 1) (tasks s) = [doing]
  /\ timeLeft (timer s) = JS.of_Z 1499
  /\ timeLeft (timer s') = JS.of_Z 1500
  /\ status (withStatus task1 todo) = todo
  /\ status (withStatus task1 todo) <> done.
Proof.
  cbv zeta. split; [reflexivity|]. split; [reflexivity|].
  destruct (reset_returns_to_idle
              (run [ClickStart task1; IntervalFires] firstLaunch))
    as (_ & _ & Htl & _ & _ & _ & _ & _ & Hst).
  split; [exact Htl|].
  apply (Hst task1 (withStatus task1 todo) eq_refl); [now left | reflexivity].
Defined.

(* ================================================================== *)
(** ** Pausing                                                        *)
(* ================================================================== *)

Lemma ticks_when_stopped :
  forall (renders n : nat) (s : AppState),
    isRunning (timer s) = false ->
    ticks (S renders) n s = Some s.
Proof.
  intros renders n s Hstop. induction n as [|n IH]; [reflexivity|].
  simpl. unfold tick, intervalScheduled, timerEffect.
  rewrite Hstop. simpl. unfold timerEffect. rewrite Hstop. simpl. exact IH.
Qed.

(** While the timer is not running no interval is scheduled and the effect
    queues nothing: any number of seconds leaves the whole state as it is. *)
Theorem stopped_timer_ignores_time :
  forall (renders n : nat) (s : AppState),
    isRunning (timer s) = false ->
    ticks (S renders) n s = Some s.
Proof. exact ticks_when_stopped. Qed.

Lemma stopped_timer_ignores_time_witness :
  ticks 1 90 (run [ClickStart task1; IntervalFires; ClickPause] firstLaunch)
  = Some (run [ClickStart task1; IntervalFires; ClickPause] firstLaunch).
Proof.
  apply (@stopped_timer_ignores_time 0 90
           (run [ClickStart task1; IntervalFires; ClickPause] firstLaunch)).
  reflexivity.
Defined.

(** Pausing a running timer, letting any number of seconds pass and
    resuming gives back the state in which pause was pressed: no time is
    lost or gained. *)
Theorem pause_wait_resume_is_identity :
  forall (renders n : nat) (s : AppState),
    isRunning (timer s) = true ->
    option_map (fire ClickPause) (ticks (S renders) n (fire ClickPause s)) = Some s.
Proof.
  intros renders n s Hrun.
  rewrite ticks_when_stopped.
  - destruct s as [ts st a [m tl r sl tot]]. simpl in *. subst r. reflexivity.
  - destruct s as [ts st a [m tl r sl tot]]. simpl in *. subst r. reflexivity.
Qed.

Lemma pause_wait_resume_is_identity_witness :
  option_map (fire ClickPause)
    (ticks 1 30 (fire ClickPause (run [ClickStart task1; IntervalFires] firstLaunch)))
  = Some (run [ClickStart task1; IntervalFires] firstLaunch).
Proof.
  apply (@pause_wait_resume_is_identity 0 30
           (run [ClickStart task1; IntervalFires] firstLaunch)).
  reflexivity.
Defined.

(** An idle timer never runs: in every state reachable from a launch, the
    mode [pomodoro] comes with [isRunning = false]. The pause button, which
    could set it running, is only on the page while a task is active, and
    then the timer is not idle. *)
Theorem idle_timer_is_not_running :
  forall (storedTasks : option (list Task)) (storedSettings : option Settings)
         (s : AppState),
    reachable (initialState storedTasks storedSettings) s ->
    phase s = idle ->
    isRunning (timer s) = false.
Proof.
  intros storedTasks storedSettings s Hs.
  induction Hs as [|s e Hs IH Hen]; [reflexivity|].
  assert (Hdoing : activeTaskDoing s).
  { apply (activeTaskDoing_reachable (init := initialState storedTasks storedSettings));
      [intros a Ha; discriminate Ha | exact Hs]. }
  unfold phase in *.
  destruct e; simpl in Hen;
    try (unfold fire, dispatch; simpl; exact IH).
  - (* ClickStart *)
    unfold fire, dispatch, startTimer.
    destruct (activeTask s) as [a|];
      [destruct (negb (TaskId_eqb (id a) (id task)))|]; simpl; discriminate.
  - (* ClickPause *)
    destruct (activeTask s) as [a|] eqn:Ea; [|contradiction].
    destruct (Hdoing a Ea) as [Hph _]. unfold phase in Hph.
    unfold fire, dispatch, togglePauseTimer. simpl.
    intro Hidle. destruct (currentMode (timer s)); congruence.
  - (* ClickComplete *)
    unfold fire, dispatch, onComplete, resetTimer.
    destruct (activeTask s); [reflexivity | congruence].
  - (* ClickReset *)
    unfold fire, dispatch, onReset, resetTimer.
    destruct (activeTask s); reflexivity.
  - (* SubmitNewTask *)
    unfold fire, dispatch, handleAddTask.
    destruct (JS.trim _); simpl; exact IH.
  - (* EffectRuns *)
    unfold fire, dispatch, timerEffect, resetTimer.
    destruct (isRunning (timer s)) eqn:Er; [|simpl; rewrite ?Er; exact IH].
    destruct (JS.leb (timeLeft (timer s)) (JS.of_Z 0));
      [|simpl; rewrite ?Er; exact IH].
    destruct (currentMode (timer s)) eqn:Em.
    + simpl. rewrite ?Er, ?Em. exact IH.
    + destruct (JS.gtb _ _); [simpl; discriminate|].
      destruct (activeTask s); reflexivity.
    + simpl. discriminate.
Qed.

Lemma idle_timer_is_not_running_witness :
  isRunning (timer (run [ClickStart task1; ClickComplete] firstLaunch)) = false.
Proof.
  apply (@idle_timer_is_not_running None None
           (run [ClickStart task1; ClickComplete] firstLaunch)).
  - apply reachable_run; [constructor|]. simpl.
    repeat split; try discriminate. now left.
  - reflexivity.
Defined.

(* ================================================================== *)
(** ** Counting down                                                  *)
(* ================================================================== *)


Lemma sub_of_Z (a b : Z) : JS.sub (JS.of_Z a) (JS.of_Z b) = JS.of_Z (a - b).
Proof.
  unfold JS.sub, JS.of_Z, inject_Z, Qminus, Qplus, Qopp. simpl.
  rewrite !Z.mul_1_r. reflexivity.
Qed.

Lemma leb_of_Z (a b : Z) : JS.leb (JS.of_Z a) (JS.of_Z b) = (a <=? b)%Z.
Proof.
  unfold JS.leb, JS.of_Z, inject_Z, Qle_bool. simpl.
  rewrite !Z.mul_1_r. reflexivity.
Qed.


Lemma ticks_add (renders a b : nat) (s : AppState) :
  ticks renders (a + b) s =
  match ticks renders a s with
  | Some s' => ticks renders b s'
  | None => None
  end.
Proof.
  revert s. induction a as [|a IH]; intro s; simpl; [reflexivity|].
  destruct (tick renders s); [apply IH | reflexivity].
Qed.

Lemma tick_decrements (renders : nat) (s : AppState) (n : Z) :
  isRunning (timer s) = true ->
  timeLeft (timer s) = JS.of_Z n ->
  (1 < n)%Z ->
  tick (S renders) s = Some (withTimeLeft (JS.of_Z (n - 1)) s).
Proof.
  intros Hrun Htl Hn.
  unfold tick, intervalScheduled. rewrite Hrun, Htl, leb_of_Z.
  replace (n <=? 0)%Z with false by (symmetry; apply Z.leb_gt; lia).
  cbn [andb negb].
  change (fire IntervalFires s)
    with (withTimeLeft (JS.sub (timeLeft (timer s)) (JS.of_Z 1)) s).
  rewrite Htl, sub_of_Z.
  cbn [runEffects]. unfold timerEffect at 1.
  cbn [withTimeLeft timer isRunning timeLeft].
  rewrite Hrun, leb_of_Z.
  replace (n - 1 <=? 0)%Z with false by (symmetry; apply Z.leb_gt; lia).
  reflexivity.
Qed.

Lemma ticks_count_down :
  forall (renders k : nat) (s : AppState) (n : Z),
    isRunning (timer s) = true ->
    timeLeft (timer s) = JS.of_Z n ->
    (Z.of_nat k < n)%Z ->
    ticks (S renders) k s = Some (withTimeLeft (JS.of_Z (n - Z.of_nat k)) s).
Proof.
  intros renders k. induction k as [|k IH]; intros s n Hrun Htl Hk.
  - simpl. rewrite Z.sub_0_r, <- Htl.
    destruct s as [ts st a [m tl r sl tot]]. reflexivity.
  - cbn [ticks]. rewrite (tick_decrements _ _ Hrun Htl) by lia.
    rewrite (IH _ (n - 1)%Z); [|exact Hrun|reflexivity|lia].
    unfold withTimeLeft. simpl. do 4 f_equal. lia.
Qed.

(** While more than one second is left, a second of a running timer takes
    one off an integer [timeLeft] and changes nothing else: after [k]
    seconds, [k] below the remaining time, exactly [k] are gone. The
    remaining time is an integer that a JavaScript number holds exactly. *)
Theorem running_timer_counts_down :
  forall (renders k : nat) (s : AppState) (n : Z),
    isRunning (timer s) = true ->
    timeLeft (timer s) = JS.of_Z n ->
    (Z.of_nat k < n <= 2 ^ 53)%Z ->
    ticks (S renders) k s = Some (withTimeLeft (JS.of_Z (n - Z.of_nat k)) s).
Proof.
  intros renders k s n Hrun Htl [Hk _]. now apply ticks_count_down.
Qed.

Lemma running_timer_counts_down_witness :
  ticks 1 100 (run [ClickStart task1] firstLaunch)
  = Some (withTimeLeft (JS.of_Z 1400) (run [ClickStart task1] firstLaunch)).
Proof.
  apply (@running_timer_counts_down 0 100 (run [ClickStart task1] firstLaunch) 1500);
    [reflexivity | reflexivity | lia].
Defined.

(* ================================================================== *)
(** ** A cycle of any length                                          *)
(* ================================================================== *)

Section Cycle.

Variables (registry : list Task) (task : Task).
Variables (w b k : nat) (renders : nat).
Hypothesis w_positive : 1 <= w.
Hypothesis b_positive : 1 <= b.

Let st : Settings := wholeSettings (Z.of_nat w) (Z.of_nat b) (Z.of_nat k).








End Cycle.



(* ================================================================== *)
(** ** The effect settles                                             *)
(* ================================================================== *)

Lemma saved_duration_positive (n : JS.number) :
  JS.leb (JS.mul (JS.Math_max (JS.of_Z 1) n) (JS.of_Z 60)) (JS.of_Z 0) = false.
Proof.
  destruct n as [|q| |]; try reflexivity.
  unfold JS.Math_max, JS.ltb, JS.of_Z.
  destruct (Qle_bool q (inject_Z 1)) eqn:E; [reflexivity|].
  cbn [negb JS.mul JS.leb].
  destruct (Qle_bool (q * inject_Z 60) (inject_Z 0)) eqn:E2; [|reflexivity].
  apply Qle_bool_iff in E2.
  assert (Hq : ~ (q <= inject_Z 1)%Q)
    by (intro H; apply Qle_bool_iff in H; congruence).
  exfalso. apply Hq. unfold Qle, Qmult, inject_Z in *. simpl in *. lia.
Qed.

(** Under settings saved through the dialog, whatever was typed, one run of
    the timer effect settles the timer: the run after it queues nothing, so
    two renders always suffice and the effect cannot loop. *)
Theorem timer_effect_settles_after_one_run :
  forall (s : AppState) (localSettings : SettingsModal.LocalSettings)
         (renders : nat),
    timerSettings s = SettingsModal.savedSettings localSettings ->
    timerEffect (fire EffectRuns s) = []
    /\ runEffects (2 + renders) s = Some (fire EffectRuns s).
Proof.
  intros s ls renders Hcfg.
  assert (Hquiet : timerEffect (fire EffectRuns s) = []).
  { unfold fire, dispatch. unfold timerEffect at 2.
    destruct (isRunning (timer s)) eqn:Er;
      [|cbn [negb flush fold_left]; unfold timerEffect; now rewrite Er].
    destruct (JS.leb (timeLeft (timer s)) (JS.of_Z 0)) eqn:El;
      [|cbn [negb flush fold_left]; unfold timerEffect; now rewrite Er, El].
    cbn [negb].
    destruct (currentMode (timer s)) eqn:Em.
    - cbn [flush fold_left]. unfold timerEffect. now rewrite Er, El, Em.
    - destruct (JS.gtb _ _).
      + unfold timerEffect. cbn [flush fold_left applyUpdate timer isRunning
                                 timeLeft timerSettings negb].
        rewrite Hcfg. unfold SettingsModal.savedSettings. cbn [pomodoroBreak].
        now rewrite saved_duration_positive.
      + unfold resetTimer. destruct (activeTask s); reflexivity.
    - unfold timerEffect. cbn [flush fold_left applyUpdate timer isRunning
                               timeLeft timerSettings negb].
      rewrite Hcfg. unfold SettingsModal.savedSettings. cbn [pomodoroWork].
      now rewrite saved_duration_positive. }
  split; [exact Hquiet|].
  cbn [Nat.add runEffects].
  destruct (timerEffect s) as [|u q] eqn:Eq.
  - unfold fire, dispatch. now rewrite Eq.
  - change (flush (u :: q) s) with (dispatch (fun _ => u :: q) s).
    replace (dispatch (fun _ => u :: q) s) with (fire EffectRuns s)
      by (unfold fire, dispatch; now rewrite Eq).
    now rewrite Hquiet.
Qed.

Lemma timer_effect_settles_after_one_run_witness :
  let garbled := {| SettingsModal.pomodoroWork := JS.Str "abc";
                    SettingsModal.pomodoroBreak := JS.Str "0";
                    SettingsModal.pomodoroSessions := JS.Str "2" |} in
  let s := run [SaveSettings garbled; ClickStart task1] firstLaunch in
  runEffects 2 s = Some (fire EffectRuns s).
Proof.
  cbv zeta.
  apply (@timer_effect_settles_after_one_run
           (run [SaveSettings {| SettingsModal.pomodoroWork := JS.Str "abc";
                                 SettingsModal.pomodoroBreak := JS.Str "0";
                                 SettingsModal.pomodoroSessions := JS.Str "2" |};
                 ClickStart task1] firstLaunch)
           {| SettingsModal.pomodoroWork := JS.Str "abc";
              SettingsModal.pomodoroBreak := JS.Str "0";
              SettingsModal.pomodoroSessions := JS.Str "2" |} 0).
  reflexivity.
Defined.

(* ================================================================== *)
(** ** Changing the settings during a run                             *)
(* ================================================================== *)

Lemma leb_Fin_positive (q : Q) :
  (0 < q)%Q -> JS.leb (JS.Fin q) (JS.of_Z 0) = false.
Proof.
  intro H. unfold JS.leb, JS.of_Z.
  destruct (Qle_bool q (inject_Z 0)) eqn:E; [|reflexivity].
  apply Qle_bool_iff in E. change (inject_Z 0) with 0%Q in E. lra.
Qed.

Lemma leb_Fin_nonpositive (q : Q) :
  (q <= 0)%Q -> JS.leb (JS.Fin q) (JS.of_Z 0) = true.
Proof. intro H. unfold JS.leb, JS.of_Z. now apply Qle_bool_iff. Qed.

(** One second with more than a second left, whole or not. *)
Lemma tick_in_flight (renders : nat) (s : AppState) (q : Q) :
  isRunning (timer s) = true ->
  timeLeft (timer s) = JS.Fin q ->
  (1 < q)%Q ->
  tick (S renders) s = Some (withTimeLeft (JS.Fin (q - 1)%Q) s).
Proof.
  intros Hrun Htl Hq.
  unfold tick, intervalScheduled. rewrite Hrun, Htl, leb_Fin_positive by lra.
  cbn [andb negb].
  change (fire IntervalFires s)
    with (withTimeLeft (JS.sub (timeLeft (timer s)) (JS.of_Z 1)) s).
  rewrite Htl. change (JS.sub (JS.Fin q) (JS.of_Z 1)) with (JS.Fin (q - 1)%Q).
  cbn [runEffects]. unfold timerEffect at 1.
  cbn [withTimeLeft timer isRunning timeLeft].
  rewrite Hrun, leb_Fin_positive by lra.
  reflexivity.
Qed.

Lemma ticks_in_flight :
  forall (renders k : nat) (s : AppState) (q : Q),
    isRunning (timer s) = true ->
    timeLeft (timer s) = JS.Fin q ->
    (inject_Z (Z.of_nat k) < q)%Q ->
    exists q1, ticks (S renders) k s = Some (withTimeLeft (JS.Fin q1) s)
               /\ (q1 == q - inject_Z (Z.of_nat k))%Q.
Proof.
  intros renders k. induction k as [|k IH]; intros s q Hrun Htl Hk.
  - exists q. split; [|change (inject_Z (Z.of_nat 0)) with 0%Q; lra].
    simpl. rewrite <- Htl. destruct s as [ts st a [m tl r sl tot]]. reflexivity.
  - assert (Hk0 : (0 <= inject_Z (Z.of_nat k))%Q)
      by (change 0%Q with (inject_Z 0); rewrite <- Zle_Qle; lia).
    rewrite Nat2Z.inj_succ in *. unfold Z.succ in *. rewrite inject_Z_plus in *.
    change (inject_Z 1) with 1%Q in *.
    cbn [ticks]. rewrite (tick_in_flight _ _ Hrun Htl) by lra.
    destruct (IH (withTimeLeft (JS.Fin (q - 1)%Q) s) (q - 1)%Q) as (q1 & Ht & Hq1);
      [exact Hrun | reflexivity | lra |].
    exists q1. split; [rewrite Ht; reflexivity | lra].
Qed.

(** The second in which a work phase runs out, sessions remaining. *)
Lemma last_tick_of_work (renders : nat) (s : AppState)
                        (ls : SettingsModal.LocalSettings) (q : Q) :
  timerSettings s = SettingsModal.savedSettings ls ->
  isRunning (timer s) = true ->
  timeLeft (timer s) = JS.Fin q ->
  (0 < q <= 1)%Q ->
  currentMode (timer s) = Mode.pomodoroWork ->
  JS.gtb (JS.sub (sessionsLeft (timer s)) (JS.of_Z 1)) (JS.of_Z 0) = true ->
  tick (S (S renders)) s
  = Some {| tasks := tasks s; timerSettings := timerSettings s;
            activeTask := activeTask s;
            timer := {| currentMode := Mode.pomodoroBreak;
                        timeLeft := JS.mul (pomodoroBreak (timerSettings s))
                                           (JS.of_Z 60);
                        isRunning := true;
                        sessionsLeft := JS.sub (sessionsLeft (timer s)) (JS.of_Z 1);
                        totalSessions := totalSessions (timer s) |} |}.
Proof.
  intros Hcfg Hrun Htl Hq Hmode Hleft.
  unfold tick, intervalScheduled. rewrite Hrun, Htl, leb_Fin_positive by lra.
  cbn [andb negb].
  change (fire IntervalFires s)
    with (withTimeLeft (JS.sub (timeLeft (timer s)) (JS.of_Z 1)) s).
  rewrite Htl. change (JS.sub (JS.Fin q) (JS.of_Z 1)) with (JS.Fin (q - 1)%Q).
  cbn [runEffects]. unfold timerEffect at 1.
  cbn [withTimeLeft timer isRunning timeLeft currentMode sessionsLeft
       timerSettings activeTask].
  rewrite Hrun, leb_Fin_nonpositive, Hmode, Hleft by lra.
  cbn [negb flush fold_left applyUpdate timer tasks timerSettings activeTask
       totalSessions].
  assert (Hpos : JS.leb (JS.mul (pomodoroBreak (timerSettings s)) (JS.of_Z 60)) (JS.of_Z 0)
                 = false)
    by (rewrite Hcfg; apply saved_duration_positive).
  unfold timerEffect. cbn [timer isRunning timeLeft negb].
  rewrite Hpos. reflexivity.
Qed.

(** The second in which a break runs out. *)
Lemma last_tick_of_break (renders : nat) (s : AppState)
                         (ls : SettingsModal.LocalSettings) (q : Q) :
  timerSettings s = SettingsModal.savedSettings ls ->
  isRunning (timer s) = true ->
  timeLeft (timer s) = JS.Fin q ->
  (0 < q <= 1)%Q ->
  currentMode (timer s) = Mode.pomodoroBreak ->
  tick (S (S renders)) s
  = Some {| tasks := tasks s; timerSettings := timerSettings s;
            activeTask := activeTask s;
            timer := {| currentMode := Mode.pomodoroWork;
                        timeLeft := JS.mul (pomodoroWork (timerSettings s))
                                           (JS.of_Z 60);
                        isRunning := true;
                        sessionsLeft := sessionsLeft (timer s);
                        totalSessions := totalSessions (timer s) |} |}.
Proof.
  intros Hcfg Hrun Htl Hq Hmode.
  unfold tick, intervalScheduled. rewrite Hrun, Htl, leb_Fin_positive by lra.
  cbn [andb negb].
  change (fire IntervalFires s)
    with (withTimeLeft (JS.sub (timeLeft (timer s)) (JS.of_Z 1)) s).
  rewrite Htl. change (JS.sub (JS.Fin q) (JS.of_Z 1)) with (JS.Fin (q - 1)%Q).
  cbn [runEffects]. unfold timerEffect at 1.
  cbn [withTimeLeft timer isRunning timeLeft currentMode sessionsLeft
       timerSettings activeTask].
  rewrite Hrun, leb_Fin_nonpositive, Hmode by lra.
  cbn [negb flush fold_left applyUpdate timer tasks timerSettings activeTask
       totalSessions].
  assert (Hpos : JS.leb (JS.mul (pomodoroWork (timerSettings s)) (JS.of_Z 60)) (JS.of_Z 0)
                 = false)
    by (rewrite Hcfg; apply saved_duration_positive).
  unfold timerEffect. cbn [timer isRunning timeLeft negb].
  rewrite Hpos. reflexivity.
Qed.

(** The number of seconds a positive remaining time lasts. *)
Lemma seconds_of_time_left (q : Q) :
  (0 < q)%Q ->
  exists m, Z.to_nat (Qceiling q) = S m
            /\ (inject_Z (Z.of_nat m) < q <= inject_Z (Z.of_nat m) + 1)%Q.
Proof.
  intro Hq.
  pose proof (Qle_ceiling q) as Hle. pose proof (Qceiling_lt q) as Hlt.
  assert (Hpos : (0 < Qceiling q)%Z).
  { apply Z.lt_nge. intro Hc.
    assert (inject_Z (Qceiling q) <= inject_Z 0)%Q by (rewrite <- Zle_Qle; exact Hc).
    change (inject_Z 0) with 0%Q in *. lra. }
  exists (Z.to_nat (Qceiling q - 1)).
  split; [lia|].
  rewrite Z2Nat.id by lia.
  replace (Qceiling q) with ((Qceiling q - 1) + 1)%Z in Hle by lia.
  rewrite inject_Z_plus in Hle. change (inject_Z 1) with 1%Q in Hle.
  split; [exact Hlt | exact Hle].
Qed.

(** C9: saving new settings changes nothing of the timer record, so the
    remaining time and the session counters of the run stay as they are.
    A running phase with time left counts that time down second by second,
    unscaled, for as many seconds as it lasts (the remaining time rounded
    up); the second that ends it enters the next phase with the values
    saved: the break after a work phase lasts the new break duration, the
    work phase after a break lasts the new work duration, and the total of
    the run stays what it was. The same holds when the save falls on the
    instant a phase has run out and the timer effect is about to run. A
    start after the save takes the new work duration and session count.
    The remaining time is within the integers that a JavaScript number
    holds exactly. *)
Theorem settings_change_applies_from_next_phase :
  forall (s : AppState) (localSettings : SettingsModal.LocalSettings),
    let saved := SettingsModal.savedSettings localSettings in
    let s' := fire (SaveSettings localSettings) s in
    timer s' = timer s
    /\ tasks s' = tasks s
    /\ activeTask s' = activeTask s
    /\ timerSettings s' = saved
    /\ (forall (renders : nat) (q : Q),
          isRunning (timer s) = true ->
          timeLeft (timer s) = JS.Fin q ->
          (0 < q <= inject_Z (2 ^ 53))%Q ->
          let seconds := Z.to_nat (Qceiling q) in
          (forall k : nat,
              k < seconds ->
              exists q1,
                ticks (2 + renders) k s' = Some (withTimeLeft (JS.Fin q1) s')
                /\ (q1 == q - inject_Z (Z.of_nat k))%Q)
          /\ (currentMode (timer s) = Mode.pomodoroWork ->
              JS.gtb (JS.sub (sessionsLeft (timer s)) (JS.of_Z 1)) (JS.of_Z 0)
              = true ->
              exists s2,
                ticks (2 + renders) seconds s' = Some s2
                /\ timer s2 =
                   {| currentMode := Mode.pomodoroBreak;
                      timeLeft := JS.mul (pomodoroBreak saved) (JS.of_Z 60);
                      isRunning := true;
                      sessionsLeft := JS.sub (sessionsLeft (timer s)) (JS.of_Z 1);
                      totalSessions := totalSessions (timer s) |}
                /\ tasks s2 = tasks s /\ activeTask s2 = activeTask s
                /\ timerSettings s2 = saved)
          /\ (currentMode (timer s) = Mode.pomodoroBreak ->
              exists s2,
                ticks (2 + renders) seconds s' = Some s2
                /\ timer s2 =
                   {| currentMode := Mode.pomodoroWork;
                      timeLeft := JS.mul (pomodoroWork saved) (JS.of_Z 60);
                      isRunning := true;
                      sessionsLeft := sessionsLeft (timer s);
                      totalSessions := totalSessions (timer s) |}
                /\ tasks s2 = tasks s /\ activeTask s2 = activeTask s
                /\ timerSettings s2 = saved))
    /\ (isRunning (timer s) = true ->
        JS.leb (timeLeft (timer s)) (JS.of_Z 0) = true ->
        currentMode (timer s) = Mode.pomodoroWork ->
        JS.gtb (JS.sub (sessionsLeft (timer s)) (JS.of_Z 1)) (JS.of_Z 0) = true ->
        timer (fire EffectRuns s') =
        {| currentMode := Mode.pomodoroBreak;
           timeLeft := JS.mul (pomodoroBreak saved) (JS.of_Z 60);
           isRunning := true;
           sessionsLeft := JS.sub (sessionsLeft (timer s)) (JS.of_Z 1);
           totalSessions := totalSessions (timer s) |})
    /\ (isRunning (timer s) = true ->
        JS.leb (timeLeft (timer s)) (JS.of_Z 0) = true ->
        currentMode (timer s) = Mode.pomodoroBreak ->
        timer (fire EffectRuns s') =
        {| currentMode := Mode.pomodoroWork;
           timeLeft := JS.mul (pomodoroWork saved) (JS.of_Z 60);
           isRunning := true;
           sessionsLeft := sessionsLeft (timer s);
           totalSessions := totalSessions (timer s) |})
    /\ (forall task, timer (fire (ClickStart task) s') = freshRun saved).
Proof.
  intros s ls. cbv zeta.
  split; [reflexivity|]. split; [reflexivity|]. split; [reflexivity|].
  split; [reflexivity|]. split; [|split; [|split]].
  - intros renders q Hrun Htl [Hq _].
    destruct (seconds_of_time_left Hq) as (m & Hm & Hlo & Hhi).
    rewrite Hm. change (2 + renders) with (S (S renders)).
    set (s' := fire (SaveSettings ls) s).
    assert (Hcfg : timerSettings s' = SettingsModal.savedSettings ls)
      by reflexivity.
    destruct (@ticks_in_flight (S renders) m s' q Hrun Htl Hlo)
      as (qm & Hticks & Hqm).
    assert (Hlast : (0 < qm <= 1)%Q) by (split; lra).
    split; [|split].
    + intros k Hk. apply ticks_in_flight; [exact Hrun | exact Htl |].
      assert (inject_Z (Z.of_nat k) <= inject_Z (Z.of_nat m))%Q
        by (rewrite <- Zle_Qle; lia).
      lra.
    + intros Hmode Hleft.
      replace (S m) with (m + 1) by lia. rewrite ticks_add, Hticks.
      cbn [ticks].
      rewrite (@last_tick_of_work renders (withTimeLeft (JS.Fin qm) s') ls qm);
        [|exact Hcfg|exact Hrun|reflexivity|exact Hlast|exact Hmode|exact Hleft].
      eexists. split; [reflexivity|]. repeat split.
    + intros Hmode.
      replace (S m) with (m + 1) by lia. rewrite ticks_add, Hticks.
      cbn [ticks].
      rewrite (@last_tick_of_break renders (withTimeLeft (JS.Fin qm) s') ls qm);
        [|exact Hcfg|exact Hrun|reflexivity|exact Hlast|exact Hmode].
      eexists. split; [reflexivity|]. repeat split.
  - intros Hrun Hzero Hmode Hleft.
    unfold fire, dispatch, timerEffect. cbn [SettingsModal.handleSave flush
      fold_left applyUpdate timer tasks activeTask timerSettings].
    rewrite Hrun, Hzero, Hmode, Hleft. reflexivity.
  - intros Hrun Hzero Hmode.
    unfold fire, dispatch, timerEffect. cbn [SettingsModal.handleSave flush
      fold_left applyUpdate timer tasks activeTask timerSettings].
    rewrite Hrun, Hzero, Hmode. reflexivity.
  - intro task. unfold fire, dispatch, startTimer.
    cbn [SettingsModal.handleSave flush fold_left applyUpdate timer tasks
         activeTask timerSettings].
    destruct (activeTask s) as [a|];
      [destruct (negb (TaskId_eqb (id a) (id task)))|]; reflexivity.
Qed.

(** The settings are changed to 30, 10 and 3 with 1500 seconds of the
    first work phase left: the phase runs its 1500 seconds and the break
    entered lasts 600. Changed during a break of 60 seconds, the work phase
    entered after it lasts 1800. Changed at the instant a work phase of one
    minute has run out, the break entered lasts 600 as well. *)
Lemma settings_change_applies_from_next_phase_witness :
  let oneMinute := {| SettingsModal.pomodoroWork := JS.Str "1";
                      SettingsModal.pomodoroBreak := JS.Str "1";
                      SettingsModal.pomodoroSessions := JS.Str "2" |} in
  let changed := {| SettingsModal.pomodoroWork := JS.Str "30";
                    SettingsModal.pomodoroBreak := JS.Str "10";
                    SettingsModal.pomodoroSessions := JS.Str "3" |} in
  let working := fire (ClickStart task1) firstLaunch in
  let workOver := run ([SaveSettings oneMinute; ClickStart task1]
                       ++ repeat IntervalFires 60) firstLaunch in
  let resting := fire EffectRuns workOver in
  (exists q1,
      ticks 2 1499 (fire (SaveSettings changed) working)
      = Some (withTimeLeft (JS.Fin q1) (fire (SaveSettings changed) working))
      /\ (q1 == 1)%Q)
  /\ (exists s2,
         ticks 2 1500 (fire (SaveSettings changed) working) = Some s2
         /\ currentMode (timer s2) = Mode.pomodoroBreak
         /\ timeLeft (timer s2) = JS.of_Z 600
         /\ sessionsLeft (timer s2) = JS.of_Z 3
         /\ totalSessions (timer s2) = JS.of_Z 4)
  /\ (exists s2,
         ticks 2 60 (fire (SaveSettings changed) resting) = Some s2
         /\ currentMode (timer s2) = Mode.pomodoroWork
         /\ timeLeft (timer s2) = JS.of_Z 1800
         /\ sessionsLeft (timer s2) = JS.of_Z 1
         /\ totalSessions (timer s2) = JS.of_Z 2)
  /\ timeLeft (timer (fire EffectRuns (fire (SaveSettings changed) workOver)))
     = JS.of_Z 600
  /\ timeLeft (timer (fire (ClickStart task2) (fire (SaveSettings changed) working)))
     = JS.of_Z 1800.
Proof.
  cbv zeta.
  set (oneMinute := {| SettingsModal.pomodoroWork := JS.Str "1";
                       SettingsModal.pomodoroBreak := JS.Str "1";
                       SettingsModal.pomodoroSessions := JS.Str "2" |}).
  set (changed := {| SettingsModal.pomodoroWork := JS.Str "30";
                     SettingsModal.pomodoroBreak := JS.Str "10";
                     SettingsModal.pomodoroSessions := JS.Str "3" |}).
  set (working := fire (ClickStart task1) firstLaunch).
  set (workOver := run ([SaveSettings oneMinute; ClickStart task1]
                        ++ repeat IntervalFires 60) firstLaunch).
  set (resting := fire EffectRuns workOver).
  destruct (settings_change_applies_from_next_phase working changed)
    as (_ & _ & _ & _ & Hwork & _).
  destruct (settings_change_applies_from_next_phase working changed)
    as (_ & _ & _ & _ & _ & _ & _ & Hstart).
  destruct (settings_change_applies_from_next_phase resting changed)
    as (_ & _ & _ & _ & Hrest & _).
  destruct (settings_change_applies_from_next_phase workOver changed)
    as (_ & _ & _ & _ & _ & Hpending & _).
  assert (Hbound : forall z : Z, (0 < z <= 2 ^ 53)%Z ->
                                 (0 < inject_Z z <= inject_Z (2 ^ 53))%Q).
  { intros z [H1 H2]. split; [|now rewrite <- Zle_Qle].
    change 0%Q with (inject_Z 0). now rewrite <- Zlt_Qlt. }
  pose proof (Hwork 0 (inject_Z 1500) eq_refl eq_refl (Hbound 1500%Z ltac:(lia)))
    as Hw.
  pose proof (Hrest 0 (inject_Z 60) eq_refl eq_refl (Hbound 60%Z ltac:(lia)))
    as Hr.
  cbv zeta in Hw, Hr.
  destruct Hw as (Hcount & HtoBreak & _). destruct Hr as (_ & _ & HtoWork).
  split; [|split; [|split; [|split]]].
  - destruct (Hcount 1499 (proj1 (Nat.ltb_lt 1499 1500) eq_refl)) as (q1 & Hq1 & Heq).
    exists q1. split; [exact Hq1|]. rewrite Heq. reflexivity.
  - destruct (HtoBreak eq_refl eq_refl) as (s2 & Hs2 & Ht & _).
    exists s2. split; [exact Hs2|]. rewrite Ht. repeat split.
  - destruct (HtoWork eq_refl) as (s2 & Hs2 & Ht & _).
    exists s2. split; [exact Hs2|]. rewrite Ht. repeat split.
  - rewrite (Hpending eq_refl eq_refl eq_refl eq_refl). reflexivity.
  - rewrite (Hstart task2). reflexivity.
Defined.

(* ================================================================== *)
(** ** The registry under the events                                  *)
(* ================================================================== *)

Lemma map_status_identity (taskId : TaskId) (st : Status) (ts : list Task) :
  map identityOf (map (fun task => if TaskId_eqb (id task) taskId
                                   then withStatus task st else task) ts)
  = map identityOf ts.
Proof.
  rewrite map_map. apply map_ext. intro x.
  destruct (TaskId_eqb (id x) taskId); reflexivity.
Qed.

Lemma map_status_position (taskId : TaskId) (st : Status) (ts : list Task) :
  map position (map (fun task => if TaskId_eqb (id task) taskId
                                 then withStatus task st else task) ts)
  = map position ts.
Proof.
  rewrite map_map. apply map_ext. intro x.
  destruct (TaskId_eqb (id x) taskId); reflexivity.
Qed.

(** Only adding and deleting change which tasks exist: under every other
    event the registry keeps its entries in their order with their ids,
    titles, colors and due dates; and only a drag, besides those two,
    changes a position. *)
Theorem timer_events_keep_registry :
  forall (e : Event) (s : AppState),
    changesRegistry e = false ->
    map identityOf (tasks (fire e s)) = map identityOf (tasks s)
    /\ (isDragStop e = false ->
        map position (tasks (fire e s)) = map position (tasks s)).
Proof.
  intros e s He. destruct e; try discriminate He; clear He.
  - (* ClickStart *)
    unfold fire, dispatch, startTimer.
    destruct (activeTask s) as [a|];
      [destruct (negb (TaskId_eqb (id a) (id task)))|];
      cbn [app handleUpdateStatus Status_eqb flush fold_left applyUpdate tasks];
      rewrite ?map_status_identity, ?map_status_position; split; reflexivity.
  - (* ClickDone *)
    unfold fire, dispatch, handleUpdateStatus.
    cbn [Status_eqb flush fold_left applyUpdate tasks].
    rewrite map_status_identity, map_status_position. split; reflexivity.
  - (* ClickRevert *)
    unfold fire, dispatch, handleUpdateStatus.
    cbn [Status_eqb flush fold_left applyUpdate tasks].
    rewrite map_status_identity, map_status_position. split; reflexivity.
  - split; reflexivity.
  - (* ClickComplete *)
    unfold fire, dispatch, onComplete, resetTimer, handleUpdateStatus.
    destruct (activeTask s) as [a|];
      cbn [app Status_eqb flush fold_left applyUpdate tasks];
      rewrite ?map_status_identity, ?map_status_position; split; reflexivity.
  - (* ClickReset *)
    unfold fire, dispatch, onReset, resetTimer.
    destruct (activeTask s) as [a|];
      cbn [app flush fold_left applyUpdate tasks];
      rewrite ?map_status_identity, ?map_status_position; split; reflexivity.
  - (* DragStop *)
    split; [|discriminate].
    unfold fire, dispatch, handleUpdatePosition.
    cbn [flush fold_left applyUpdate tasks].
    rewrite map_map. apply map_ext. intro x.
    destruct (TaskId_eqb (id x) (id task)); reflexivity.
  - split; reflexivity.
  - split; reflexivity.
  - (* EffectRuns *)
    unfold fire, dispatch, timerEffect, resetTimer, handleUpdateStatus.
    destruct (negb (isRunning (timer s))); [split; reflexivity|].
    destruct (JS.leb _ _); [|split; reflexivity].
    destruct (currentMode (timer s)); try (split; reflexivity).
    destruct (JS.gtb _ _); [split; reflexivity|].
    destruct (activeTask s) as [a|];
      cbn [app Status_eqb flush fold_left applyUpdate tasks];
      rewrite ?map_status_identity, ?map_status_position; split; reflexivity.
Qed.

Lemma timer_events_keep_registry_witness :
  map identityOf (tasks (run [ClickStart task1; ClickComplete] firstLaunch))
  = map identityOf defaultTasks
  /\ map position (tasks (fire ClickComplete (fire (ClickStart task1) firstLaunch)))
     = map position (tasks (fire (ClickStart task1) firstLaunch)).
Proof.
  destruct (@timer_events_keep_registry ClickComplete
              (fire (ClickStart task1) firstLaunch) eq_refl) as [Hid Hpos].
  split.
  - change (run [ClickStart task1; ClickComplete] firstLaunch)
      with (fire ClickComplete (fire (ClickStart task1) firstLaunch)).
    rewrite Hid. reflexivity.
  - apply Hpos. reflexivity.
Defined.

(** Deleting leaves no entry with the deleted id, keeps every other entry in
    place, and deleting the same task again changes nothing more. *)
Theorem delete_removes_every_entry_of_the_task :
  forall (s : AppState) (T : Task),
    let s' := fire (ClickDelete T) s in
    statusesOf (id T) (tasks s') = []
    /\ (forall x, In x (tasks s') <-> In x (tasks s) /\ id x <> id T)
    /\ fire (ClickDelete T) s' = s'.
Proof.
  intros s T. cbv zeta.
  unfold fire, dispatch, handleDeleteTask. cbn [flush fold_left applyUpdate tasks].
  split; [|split].
  - unfold statusesOf. induction (tasks s) as [|x ts IH]; [reflexivity|].
    cbn [filter]. destruct (TaskId_eqb (id x) (id T)) eqn:E; cbn [negb]; [exact IH|].
    cbn [filter]. rewrite E. exact IH.
  - intro x. rewrite filter_In. split; intros [Hin Hx]; split; try exact Hin.
    + apply TaskId_eqb_neq. now destruct (TaskId_eqb (id x) (id T)).
    + apply TaskId_eqb_neq in Hx. now rewrite Hx.
  - f_equal. induction (tasks s) as [|x ts IH]; [reflexivity|].
    cbn [filter]. destruct (negb (TaskId_eqb (id x) (id T))) eqn:E; [|exact IH].
    cbn [filter]. rewrite E. now f_equal.
Qed.

Lemma map_status_absent (taskId : TaskId) (st : Status) (ts : list Task) :
  (forall x, In x ts -> id x <> taskId) ->
  map (fun task => if TaskId_eqb (id task) taskId
                   then withStatus task st else task) ts = ts.
Proof.
  intro H. rewrite <- (map_id ts) at 2. apply map_ext_in. intros x Hx.
  apply H, TaskId_eqb_neq in Hx. now rewrite Hx.
Qed.

(** A status update for an id that no task carries changes no task. So once
    the active task has been deleted, the complete and reset buttons (and
    the end of the cycle) leave the registry as it is: the dangling
    reference does no harm there. *)
Theorem status_update_of_absent_task_changes_no_task :
  forall (s : AppState) (taskId : TaskId) (st : Status),
    (forall x, In x (tasks s) -> id x <> taskId) ->
    tasks (dispatch (fun _ => handleUpdateStatus taskId st) s) = tasks s
    /\ (option_map id (activeTask s) = Some taskId ->
        tasks (fire ClickComplete s) = tasks s
        /\ tasks (fire ClickReset s) = tasks s).
Proof.
  intros s taskId st Habsent. split.
  - unfold dispatch, handleUpdateStatus.
    destruct (Status_eqb st doing); cbn [flush fold_left applyUpdate tasks];
      now apply map_status_absent.
  - intro Ha. destruct (activeTask s) as [a|] eqn:Ea; [|discriminate Ha].
    injection Ha as <-.
    unfold fire, dispatch, onComplete, onReset, resetTimer, handleUpdateStatus.
    rewrite Ea. cbn [app Status_eqb flush fold_left applyUpdate tasks].
    rewrite !(@map_status_absent _ _ _ Habsent). split; reflexivity.
Qed.

Lemma status_update_of_absent_task_changes_no_task_witness :
  let s := run [ClickStart task1; ClickDelete (withStatus task1 doing)] firstLaunch in
  tasks (fire ClickComplete s) = [task2; task3].
Proof.
  cbv zeta.
  destruct (@status_update_of_absent_task_changes_no_task
              (run [ClickStart task1; ClickDelete (withStatus task1 doing)] firstLaunch)
              (NumId 1) done) as [_ H].
  - intros x [<-|[<-|[]]]; discriminate.
  - destruct (H eq_refl) as [Hc _]. exact Hc.
Defined.

Lemma delete_removes_every_entry_of_the_task_witness :
  In task2 (tasks (fire (ClickDelete task1) firstLaunch))
  /\ ~ In task1 (tasks (fire (ClickDelete task1) firstLaunch)).
Proof.
  destruct (delete_removes_every_entry_of_the_task firstLaunch task1)
    as (_ & Hin & _).
  split.
  - apply Hin. split; [right; now left | discriminate].
  - intro H. apply Hin in H. destruct H as [_ H]. now apply H.
Defined.

(* ================================================================== *)
(** ** Adding a task                                                  *)
(* ================================================================== *)

(** Case analysis along [dropWhiteSpace]. *)
Lemma dropWhiteSpace_ind (two : ascii -> ascii -> bool)
                         (three : ascii -> ascii -> ascii -> bool)
                         (P : list ascii -> Prop) :
  P [] ->
  (forall a r, JS.isStrWhiteSpaceChar a = true -> P r -> P (a :: r)) ->
  (forall a, JS.isStrWhiteSpaceChar a = false -> P [a]) ->
  (forall a b r, JS.isStrWhiteSpaceChar a = false -> two a b = true ->
                 P r -> P (a :: b :: r)) ->
  (forall a b, JS.isStrWhiteSpaceChar a = false -> two a b = false -> P [a; b]) ->
  (forall a b c r, JS.isStrWhiteSpaceChar a = false -> two a b = false ->
                   three a b c = true -> P r -> P (a :: b :: c :: r)) ->
  (forall a b c r, JS.isStrWhiteSpaceChar a = false -> two a b = false ->
                   three a b c = false -> P (a :: b :: c :: r)) ->
  forall l, P l.
Proof.
  intros H0 H1 H1' H2 H2' H3 H3' l.
  assert (H : forall n l, List.length l <= n -> P l).
  { clear l. induction n as [|n IH]; intros l Hl.
    - destruct l; [exact H0 | simpl in Hl; lia].
    - destruct l as [|a r]; [exact H0|]. simpl in Hl.
      destruct (JS.isStrWhiteSpaceChar a) eqn:E1; [apply H1; [exact E1|apply IH; lia]|].
      destruct r as [|b r2]; [now apply H1'|]. simpl in Hl.
      destruct (two a b) eqn:E2; [apply H2; [exact E1|exact E2|apply IH; lia]|].
      destruct r2 as [|c r3]; [now apply H2'|]. simpl in Hl.
      destruct (three a b c) eqn:E3;
        [apply H3; [exact E1|exact E2|exact E3|apply IH; lia] | now apply H3']. }
  apply (H (List.length l)). lia.
Qed.

Lemma isWhiteSpace2_not_1 (a b : ascii) :
  JS.isWhiteSpace2 a b = true -> JS.isStrWhiteSpaceChar a = false.
Proof.
  unfold JS.isWhiteSpace2, JS.isStrWhiteSpaceChar. intro H.
  apply andb_true_iff in H. destruct H as [H _]. apply N.eqb_eq in H.
  rewrite H. reflexivity.
Qed.

Lemma isWhiteSpace3_not_1_2 (a b c : ascii) :
  JS.isWhiteSpace3 a b c = true ->
  JS.isStrWhiteSpaceChar a = false /\ JS.isWhiteSpace2 a b = false.
Proof.
  unfold JS.isWhiteSpace3, JS.isWhiteSpace2, JS.isStrWhiteSpaceChar. intro H.
  assert (Ha : N_of_ascii a = 225%N \/ N_of_ascii a = 226%N
               \/ N_of_ascii a = 227%N \/ N_of_ascii a = 239%N).
  { repeat (apply orb_true_iff in H; destruct H as [H|H]);
      repeat (apply andb_true_iff in H; destruct H as [H _]);
      apply N.eqb_eq in H; auto. }
  destruct Ha as [Ha|[Ha|[Ha|Ha]]]; rewrite Ha; split; reflexivity.
Qed.

Lemma WhiteSpaceOnly_app (x y : list ascii) :
  WhiteSpaceOnly x -> WhiteSpaceOnly y -> WhiteSpaceOnly (x ++ y).
Proof.
  intros Hx Hy. induction Hx; simpl; [exact Hy|..];
    [apply WhiteSpaceOnly_1 | apply WhiteSpaceOnly_2 | apply WhiteSpaceOnly_3];
    assumption.
Qed.

(** White space only is dropped entirely. *)
Lemma dropWhiteSpace_all (l : list ascii) :
  WhiteSpaceOnly l ->
  JS.dropWhiteSpace JS.isWhiteSpace2 JS.isWhiteSpace3 l = [].
Proof.
  intro H. induction H as [|a r Ha _ IH|a b r Hab _ IH|a b c r Habc _ IH].
  - reflexivity.
  - simpl. now rewrite Ha.
  - simpl. now rewrite (isWhiteSpace2_not_1 _ _ Hab), Hab.
  - destruct (isWhiteSpace3_not_1_2 _ _ _ Habc) as [H1 H2].
    simpl. now rewrite H1, H2, Habc.
Qed.

(** What is dropped entirely, from the front ... *)
Lemma dropWhiteSpace_nil (l : list ascii) :
  JS.dropWhiteSpace JS.isWhiteSpace2 JS.isWhiteSpace3 l = [] ->
  WhiteSpaceOnly l.
Proof.
  induction l using (dropWhiteSpace_ind JS.isWhiteSpace2 JS.isWhiteSpace3);
    simpl; rewrite ?H, ?H0, ?H1; intro Hd; try discriminate Hd.
  - constructor.
  - apply WhiteSpaceOnly_1; auto.
  - apply WhiteSpaceOnly_2; auto.
  - apply WhiteSpaceOnly_3; auto.
Qed.

(** ... or from the back, is white space only. *)
Lemma dropWhiteSpace_rev_nil (q : list ascii) :
  JS.dropWhiteSpace (fun a b => JS.isWhiteSpace2 b a)
                    (fun a b c => JS.isWhiteSpace3 c b a) q = [] ->
  WhiteSpaceOnly (rev q).
Proof.
  induction q using (dropWhiteSpace_ind (fun a b => JS.isWhiteSpace2 b a)
                                        (fun a b c => JS.isWhiteSpace3 c b a));
    simpl; rewrite ?H, ?H0, ?H1; intro Hd; try discriminate Hd.
  - constructor.
  - apply WhiteSpaceOnly_app; [auto|].
    apply WhiteSpaceOnly_1; [assumption | constructor].
  - rewrite <- app_assoc. apply WhiteSpaceOnly_app; [auto|].
    apply WhiteSpaceOnly_2; [assumption | constructor].
  - rewrite <- !app_assoc. apply WhiteSpaceOnly_app; [auto|].
    apply WhiteSpaceOnly_3; [assumption | constructor].
Qed.

Lemma dropWhiteSpace_twice (l : list ascii) :
  JS.dropWhiteSpace JS.isWhiteSpace2 JS.isWhiteSpace3
    (JS.dropWhiteSpace JS.isWhiteSpace2 JS.isWhiteSpace3 l)
  = JS.dropWhiteSpace JS.isWhiteSpace2 JS.isWhiteSpace3 l.
Proof.
  induction l using (dropWhiteSpace_ind JS.isWhiteSpace2 JS.isWhiteSpace3);
    simpl; rewrite ?H, ?H0, ?H1; simpl; rewrite ?H, ?H0, ?H1; auto.
Qed.

(** [trim] leaves nothing exactly of the strings of white space only. *)
Lemma trim_nil (l : list ascii) : JS.trim l = [] <-> WhiteSpaceOnly l.
Proof.
  unfold JS.trim. split.
  - intro H. apply (f_equal (@rev ascii)) in H. rewrite rev_involutive in H.
    simpl in H. apply dropWhiteSpace_rev_nil in H. rewrite rev_involutive in H.
    apply dropWhiteSpace_all in H. rewrite dropWhiteSpace_twice in H.
    now apply dropWhiteSpace_nil.
  - intro H. now rewrite (dropWhiteSpace_all H).
Qed.

Lemma blank_WhiteSpaceOnly (l : list ascii) :
  forallb JS.isStrWhiteSpaceChar l = true -> WhiteSpaceOnly l.
Proof.
  induction l as [|a r IH]; simpl; intro H; [constructor|].
  apply andb_true_iff in H. destruct H as [Ha Hr].
  apply WhiteSpaceOnly_1; auto.
Qed.

(** A title that is empty or made of white space only, Unicode white space
    included, is ignored: nothing changes. Any other title appends one task
    at the end of the registry, with the new id, status [todo], position
    (0, 0), and no due date when the date field is empty; the other tasks,
    the timer, the active task and the settings are untouched. *)
Theorem add_task_appends_unless_title_blank :
  forall (s : AppState) (uuid : string) (newTask : NewTask),
    let s' := fire (SubmitNewTask uuid newTask) s in
    (WhiteSpaceOnly (list_ascii_of_string (nt_title newTask)) -> s' = s)
    /\ (~ WhiteSpaceOnly (list_ascii_of_string (nt_title newTask)) ->
        tasks s' = tasks s ++
                   [{| id := StrId uuid; title := nt_title newTask;
                       color := nt_color newTask;
                       position := (JS.of_Z 0, JS.of_Z 0); status := todo;
                       dueDate := if String.eqb (nt_dueDate newTask) EmptyString
                                  then None else Some (nt_dueDate newTask) |}]
        /\ timer s' = timer s /\ activeTask s' = activeTask s
        /\ timerSettings s' = timerSettings s).
Proof.
  intros s uuid nt. cbv zeta. unfold fire, dispatch, handleAddTask.
  split; intro Hb.
  - apply trim_nil in Hb. rewrite Hb. reflexivity.
  - destruct (JS.trim (list_ascii_of_string (nt_title nt))) eqn:E.
    + apply trim_nil in E. contradiction.
    + repeat split.
Qed.

(** The first title is a space, the ideographic space U+3000 and a
    no-break space U+00A0; the second has a letter between spaces. *)
Lemma add_task_appends_unless_title_blank_witness :
  fire (SubmitNewTask "u"
          {| nt_title := String " " (String (ascii_of_N 227) (String (ascii_of_N 128)
                           (String (ascii_of_N 128) (String (ascii_of_N 194)
                              (String (ascii_of_N 160) EmptyString)))));
             nt_color := "#ffec99"; nt_dueDate := EmptyString |}) firstLaunch
  = firstLaunch
  /\ List.length (tasks (fire (SubmitNewTask "u"
                     {| nt_title := " a "; nt_color := "#ffec99";
                        nt_dueDate := EmptyString |}) firstLaunch)) = 4.
Proof.
  split.
  - apply (add_task_appends_unless_title_blank firstLaunch "u"
             {| nt_title := String " " (String (ascii_of_N 227) (String (ascii_of_N 128)
                              (String (ascii_of_N 128) (String (ascii_of_N 194)
                                 (String (ascii_of_N 160) EmptyString)))));
                nt_color := "#ffec99"; nt_dueDate := EmptyString |}).
    apply trim_nil. reflexivity.
  - destruct (add_task_appends_unless_title_blank firstLaunch "u"
                {| nt_title := " a "; nt_color := "#ffec99";
                   nt_dueDate := EmptyString |}) as [_ H].
    destruct H as [Ht _]; [|rewrite Ht; reflexivity].
    intro Hw. apply trim_nil in Hw. discriminate Hw.
Defined.

(* ================================================================== *)
(** ** More on saving the settings                                    *)
(* ================================================================== *)

Lemma Math_max_one_idempotent (n : JS.number) :
  JS.Math_max (JS.of_Z 1) (JS.Math_max (JS.of_Z 1) n) = JS.Math_max (JS.of_Z 1) n.
Proof.
  destruct n as [|q| |]; try reflexivity.
  unfold JS.Math_max, JS.ltb, JS.of_Z.
  destruct (Qle_bool q (inject_Z 1)) eqn:E; cbn [negb]; [reflexivity|].
  now rewrite E.
Qed.

(** Opening the dialog on settings that were saved through it and saving
    again without editing stores the same settings: the clamp to 1 leaves
    its own results alone, NaN included. *)
Theorem saving_saved_settings_changes_nothing :
  forall (localSettings : SettingsModal.LocalSettings),
    let saved := SettingsModal.savedSettings localSettings in
    SettingsModal.savedSettings (SettingsModal.initialLocalSettings saved) = saved.
Proof.
  intro ls. cbv zeta.
  unfold SettingsModal.savedSettings, SettingsModal.initialLocalSettings.
  cbn [SettingsModal.pomodoroWork SettingsModal.pomodoroBreak
       SettingsModal.pomodoroSessions JS.Number].
  now rewrite !Math_max_one_idempotent.
Qed.

(** An input field that is empty or holds only white space converts to 0
    and is therefore saved as 1. *)
Theorem blank_input_is_saved_as_one :
  forall (input : string),
    blank input = true ->
    JS.Number (JS.Str input) = JS.of_Z 0
    /\ JS.Math_max (JS.of_Z 1) (JS.Number (JS.Str input)) = JS.of_Z 1.
Proof.
  intros input Hb. unfold blank in Hb.
  apply blank_WhiteSpaceOnly, trim_nil in Hb.
  assert (H : JS.Number (JS.Str input) = JS.of_Z 0).
  { unfold JS.Number, JS.StringToNumber. now rewrite Hb. }
  rewrite H. split; reflexivity.
Qed.

Lemma blank_input_is_saved_as_one_witness :
  pomodoroWork (SettingsModal.savedSettings
                  {| SettingsModal.pomodoroWork := JS.Str "  ";
                     SettingsModal.pomodoroBreak := JS.Str "5";
                     SettingsModal.pomodoroSessions := JS.Str "4" |})
  = JS.of_Z 1.
Proof.
  apply (@blank_input_is_saved_as_one "  "). reflexivity.
Defined.

(* ================================================================== *)
(** ** The two task lists                                             *)
(* ================================================================== *)

Lemma insertSorted_perm (compareFn : Task -> Task -> JS.number) (x : Task)
                        (l : list Task) :
  Permutation (insertSorted compareFn x l) (x :: l).
Proof.
  induction l as [|y r IH]; simpl; [apply Permutation_refl|].
  destruct (JS.ltb _ _); [|apply Permutation_refl].
  eapply perm_trans; [apply perm_skip, IH | apply perm_swap].
Qed.

Lemma Array_sort_perm (compareFn : Task -> Task -> JS.number) (l : list Task) :
  Permutation (Array_sort compareFn l) l.
Proof.
  induction l as [|x l IH]; simpl; [constructor|].
  eapply perm_trans; [apply insertSorted_perm | now apply perm_skip].
Qed.

Lemma filter_split_perm (p q : Task -> bool) (l : list Task) :
  (forall x, q x = negb (p x)) ->
  Permutation (filter p l ++ filter q l) l.
Proof.
  intro Hq. induction l as [|x l IH]; simpl; [constructor|].
  rewrite Hq. destruct (p x); simpl.
  - now apply perm_skip.
  - apply Permutation_sym. eapply perm_trans;
      [apply perm_skip, Permutation_sym, IH | apply Permutation_middle].
Qed.

(** Every task is shown in exactly one of the two lists: the priority list
    followed by the list of completed tasks is a rearrangement of the
    registry. The priority list holds the tasks handed to the plane, and no
    completed task. *)
Theorem lists_partition_registry :
  forall (ts : list Task),
    Permutation (sortedTasks ts ++ doneTasks ts) ts
    /\ Permutation (sortedTasks ts) (planeTasks ts)
    /\ Forall (fun t => status t <> done) (sortedTasks ts).
Proof.
  intro ts. unfold sortedTasks, doneTasks, planeTasks.
  assert (Hp : Permutation
                 (Array_sort compareY
                    (filter (fun t => Status_eqb (status t) todo
                                      || Status_eqb (status t) doing) ts))
                 (filter (fun t => negb (Status_eqb (status t) done)) ts)).
  { eapply perm_trans; [apply Array_sort_perm|].
    erewrite filter_ext; [apply Permutation_refl|].
    intro x. cbv beta. now destruct (status x). }
  split; [|split].
  - eapply perm_trans; [apply Permutation_app_tail, Hp|].
    apply filter_split_perm. intro x. cbv beta. now destruct (status x).
  - exact Hp.
  - apply Forall_forall. intros x Hx.
    apply (Permutation_in _ Hp), filter_In in Hx. destruct Hx as [_ Hx].
    now destruct (status x).
Qed.

Lemma ltb_sub_lt (a b : JS.number) :
  JS.ltb (JS.sub a b) (JS.of_Z 0) = true -> JS.leb a b = true.
Proof.
  destruct a as [|x| |], b as [|y| |]; simpl; try (reflexivity || discriminate).
  intro H. apply Qle_bool_iff, Qlt_le_weak, Qnot_le_lt. intro Hle.
  assert (E : Qle_bool (inject_Z 0) (x - y) = true).
  { apply Qle_bool_iff. apply -> Qle_minus_iff. exact Hle. }
  rewrite E in H. discriminate H.
Qed.

Lemma ltb_sub_ge (a b : JS.number) :
  a <> JS.NaN -> b <> JS.NaN ->
  JS.ltb (JS.sub a b) (JS.of_Z 0) = false -> JS.leb b a = true.
Proof.
  destruct a as [|x| |], b as [|y| |]; simpl; intros Ha Hb;
    try (reflexivity || discriminate || contradiction).
  intro H. apply Qle_bool_iff. apply Qle_minus_iff.
  apply Qle_bool_iff. change (Qle_bool (inject_Z 0) (x - y) = true).
  now destruct (Qle_bool (inject_Z 0) (x - y)).
Qed.

Lemma leb_trans (a b c : JS.number) :
  JS.leb a b = true -> JS.leb b c = true -> JS.leb a c = true.
Proof.
  destruct a as [|x| |], b as [|y| |], c as [|z| |]; simpl;
    try (reflexivity || discriminate).
  intros H1 H2. apply Qle_bool_iff in H1, H2. apply Qle_bool_iff.
  eapply Qle_trans; eassumption.
Qed.

Lemma insertSorted_sorted (x : Task) (l : list Task) :
  snd (position x) <> JS.NaN ->
  Forall (fun t => snd (position t) <> JS.NaN) l ->
  Sorted (fun a b => JS.leb (snd (position b)) (snd (position a)) = true) l ->
  Sorted (fun a b => JS.leb (snd (position b)) (snd (position a)) = true)
         (insertSorted compareY x l).
Proof.
  intros Hx Hl Hs. induction l as [|y r IH]; simpl.
  - repeat constructor.
  - inversion Hl as [|? ? Hy Hr]; subst. inversion Hs as [|? ? Hsr Hhd]; subst.
    unfold compareY at 1.
    destruct (JS.ltb (JS.sub (snd (position x)) (snd (position y))) (JS.of_Z 0)) eqn:E.
    + constructor; [now apply IH|].
      destruct r as [|z r']; simpl.
      * constructor. now apply ltb_sub_lt.
      * destruct (JS.ltb (compareY z x) (JS.of_Z 0)).
        -- inversion Hhd; subst. now constructor.
        -- constructor. now apply ltb_sub_lt.
    + constructor; [exact Hs|]. constructor. now apply ltb_sub_ge.
Qed.

(** When the positions of the listed tasks are numbers, the priority list
    is ordered from the highest to the lowest y coordinate: every task has a
    y at least that of each task after it. *)
Theorem priority_list_is_ordered_by_height :
  forall (ts : list Task),
    (forall t, In t ts -> status t <> done -> snd (position t) <> JS.NaN) ->
    StronglySorted (fun a b => JS.leb (snd (position b)) (snd (position a)) = true)
                   (sortedTasks ts).
Proof.
  intros ts Hnum. apply Sorted_StronglySorted.
  { intros a b c Hab Hbc. eapply leb_trans; eassumption. }
  unfold sortedTasks.
  assert (Hall : Forall (fun t => snd (position t) <> JS.NaN)
                   (filter (fun t => Status_eqb (status t) todo
                                     || Status_eqb (status t) doing) ts)).
  { apply Forall_forall. intros t Ht. apply filter_In in Ht.
    destruct Ht as [Hin Hst]. apply Hnum; [exact Hin|].
    intro Hd. rewrite Hd in Hst. discriminate Hst. }
  induction (filter _ ts) as [|x l IH]; simpl; [constructor|].
  inversion Hall as [|? ? Hx Hl]; subst.
  apply insertSorted_sorted; [exact Hx| |now apply IH].
  apply Forall_forall. intros t Ht.
  apply (Permutation_in _ (Array_sort_perm compareY l)) in Ht.
  rewrite Forall_forall in Hl. now apply Hl.
Qed.

Lemma priority_list_is_ordered_by_height_witness :
  map id (sortedTasks (tasks (fire (ClickRevert task3) firstLaunch)))
  = [NumId 2; NumId 1; NumId 3]
  /\ StronglySorted (fun a b => JS.leb (snd (position b)) (snd (position a)) = true)
                    (sortedTasks (tasks (fire (ClickRevert task3) firstLaunch))).
Proof.
  split; [reflexivity|].
  apply (@priority_list_is_ordered_by_height
           (tasks (fire (ClickRevert task3) firstLaunch))).
  intros t [<-|[<-|[<-|[]]]] _; discriminate.
Defined.

(* ================================================================== *)
(** ** The time display                                               *)
(* ================================================================== *)

Lemma length_append (a b : string) :
  String.length (a ++ b) = String.length a + String.length b.
Proof. induction a as [|c a IH]; simpl; [reflexivity | now rewrite IH]. Qed.

Lemma append_split (a b x y : string) :
  (a ++ x)%string = (b ++ y)%string ->
  String.length x = String.length y ->
  a = b /\ x = y.
Proof.
  revert b. induction a as [|c a IH]; intros [|d b] H Hlen; simpl in H.
  - now split.
  - exfalso. rewrite H in Hlen. simpl in Hlen. rewrite length_append in Hlen. lia.
  - exfalso. rewrite <- H in Hlen. simpl in Hlen. rewrite length_append in Hlen. lia.
  - injection H as -> H. destruct (IH b H Hlen) as [-> ->]. now split.
Qed.

(** The decimal digits of a number that is not negative. *)
Lemma String_of_Z_nonneg (z : Z) :
  (0 <= z)%Z ->
  exists u, String_of_Z z = NilEmpty.string_of_uint u /\ Z.of_uint u = z.
Proof.
  intro Hz. destruct z as [|p|p]; [| |lia].
  - exists (Decimal.D0 Decimal.Nil). split; reflexivity.
  - exists (Pos.to_uint p). split.
    + unfold String_of_Z. cbn [Z.to_int NilZero.string_of_int].
      pose proof (DecimalPos.Unsigned.to_uint_nonnil p) as Hn.
      now destruct (Pos.to_uint p).
    + unfold Z.of_uint. now rewrite DecimalPos.Unsigned.of_to.
Qed.

(** Reading the padded digits back gives the number. *)
Lemma padStart_decodes (z : Z) :
  (0 <= z)%Z ->
  option_map Z.of_uint (NilEmpty.uint_of_string (padStart 2 "0" (String_of_Z z)))
  = Some z.
Proof.
  intro Hz. destruct (String_of_Z_nonneg Hz) as (u & -> & <-).
  unfold padStart.
  induction (2 - String.length (NilEmpty.string_of_uint u)) as [|n IH]; simpl.
  - now rewrite NilEmpty.usu.
  - destruct (NilEmpty.uint_of_string _); [|discriminate IH].
    simpl in *. exact IH.
Qed.

Lemma padStart_inj (a b : Z) :
  (0 <= a)%Z -> (0 <= b)%Z ->
  padStart 2 "0" (String_of_Z a) = padStart 2 "0" (String_of_Z b) -> a = b.
Proof.
  intros Ha Hb H. pose proof (padStart_decodes Ha) as Da.
  rewrite H, (padStart_decodes Hb) in Da. congruence.
Qed.

Lemma padStart_two_digits (z : Z) :
  (0 <= z < 100)%Z ->
  String.length (padStart 2 "0" (String_of_Z z)) = 2.
Proof.
  intro Hz.
  assert (Hall : forallb (fun n => Nat.eqb
                                     (String.length
                                        (padStart 2 "0" (String_of_Z (Z.of_nat n)))) 2)
                         (seq 0 100) = true) by (vm_compute; reflexivity).
  rewrite forallb_forall in Hall.
  specialize (Hall (Z.to_nat z)). rewrite Z2Nat.id in Hall by lia.
  apply Nat.eqb_eq, Hall, in_seq. lia.
Qed.

(** Up to 99:59 the display has the fixed shape MM:SS: five characters with
    the colon in the middle. *)
Theorem formatTime_has_five_characters :
  forall (seconds : Z),
    (0 <= seconds < 6000)%Z ->
    String.length (formatTime seconds) = 5
    /\ String.get 2 (formatTime seconds) = Some ":"%char.
Proof.
  intros s Hs. unfold formatTime. cbv zeta.
  rewrite Z.rem_mod_nonneg by lia.
  assert (Hm : String.length (padStart 2 "0" (String_of_Z (s / 60))) = 2).
  { apply padStart_two_digits. split; [apply Z.div_pos; lia|].
    apply Z.div_lt_upper_bound; lia. }
  assert (Hr : String.length (padStart 2 "0" (String_of_Z (s mod 60))) = 2).
  { apply padStart_two_digits. pose proof (Z.mod_pos_bound s 60). lia. }
  split.
  - rewrite !length_append, Hm, Hr. reflexivity.
  - pose proof (append_correct2 (padStart 2 "0" (String_of_Z (s / 60)))
                  (":" ++ padStart 2 "0" (String_of_Z (s mod 60))) 0) as H.
    rewrite Hm in H. cbn [Nat.add] in H. rewrite <- H. reflexivity.
Qed.

Lemma formatTime_has_five_characters_witness :
  formatTime 1500 = "25:00" /\ String.length (formatTime 1500) = 5.
Proof.
  split; [reflexivity|].
  apply (@formatTime_has_five_characters 1500%Z). lia.
Defined.

(** Different remaining times are never displayed alike: from the display of
    a time that is not negative the seconds can be told. *)
Theorem formatTime_tells_times_apart :
  forall (seconds1 seconds2 : Z),
    (0 <= seconds1 <= 2 ^ 53)%Z -> (0 <= seconds2 <= 2 ^ 53)%Z ->
    formatTime seconds1 = formatTime seconds2 ->
    seconds1 = seconds2.
Proof.
  intros s1 s2 [H1 _] [H2 _] H. unfold formatTime in H. cbv zeta in H.
  rewrite !Z.rem_mod_nonneg in H by lia.
  pose proof (Z.mod_pos_bound s1 60 ltac:(lia)) as B1.
  pose proof (Z.mod_pos_bound s2 60 ltac:(lia)) as B2.
  apply append_split in H.
  - destruct H as [Hm Hr]. injection Hr as Hr.
    apply padStart_inj in Hm; [|apply Z.div_pos; lia|apply Z.div_pos; lia].
    apply padStart_inj in Hr; [|lia|lia].
    rewrite (Z.div_mod s1 60), (Z.div_mod s2 60) by lia. now rewrite Hm, Hr.
  - simpl. rewrite !padStart_two_digits by lia. reflexivity.
Qed.

Lemma formatTime_tells_times_apart_witness :
  (3725 = 62 * 60 + 5)%Z.
Proof.
  apply (@formatTime_tells_times_apart 3725%Z (62 * 60 + 5)%Z);
    [lia | lia | reflexivity].
Defined.

(* ================================================================== *)
(** ** Audio                                                          *)
(* ================================================================== *)

Lemma stopAllSounds_silent (a : Sounds) :
  playing (workSound (stopAllSounds a)) = false
  /\ playing (breakSound (stopAllSounds a)) = false.
Proof. destruct a as [[w|] [b|]]; split; reflexivity. Qed.

Lemma unlockSounds_silent (allowed : bool) (a : Sounds) :
  playing (workSound (unlockSounds allowed a)) = false
  /\ playing (breakSound (unlockSounds allowed a)) = false.
Proof. apply stopAllSounds_silent. Qed.

Lemma bgmEffect_follows_timer :
  forall (allowed : bool) (render : AppState) (a : Sounds),
    soundsFollowTimer (render, bgmEffect allowed render a)
    /\ playing (workSound (bgmEffect allowed render a))
       && playing (breakSound (bgmEffect allowed render a)) = false.
Proof.
  intros allowed render a. unfold soundsFollowTimer, bgmEffect, phase.
  cbn [fst snd].
  destruct (isRunning (timer render)); cbn [negb];
    [destruct (currentMode (timer render))|];
    destruct a as [[w|] [b|]], allowed; cbn;
    repeat split; intros; try discriminate; reflexivity.
Qed.

(** After the music effect has run, whatever was playing before and
    whether or not the browser allows playback: the work loop plays only if
    the timer runs in its work phase, the break loop only if it runs in its
    break phase, and never both. *)
Theorem music_effect_plays_only_the_loop_of_the_phase :
  forall (allowed : bool) (render : AppState) (a : Sounds),
    soundsFollowTimer (render, bgmEffect allowed render a)
    /\ playing (workSound (bgmEffect allowed render a))
       && playing (breakSound (bgmEffect allowed render a)) = false.
Proof. exact bgmEffect_follows_timer. Qed.

Lemma bgmDeps_unchanged (s s' : AppState) :
  bgmDepsChanged s s' = false ->
  isRunning (timer s') = isRunning (timer s) /\ phase s' = phase s.
Proof.
  unfold bgmDepsChanged, phase. intro H. apply orb_false_elim in H.
  destruct H as [Hr Hm].
  destruct (isRunning (timer s)), (isRunning (timer s')); try discriminate;
    destruct (currentMode (timer s)), (currentMode (timer s')); try discriminate;
    split; reflexivity.
Qed.

Lemma soundsFollowTimer_step (allowed : bool) (e : Event) (sa : AppState * Sounds) :
  soundsFollowTimer sa -> soundsFollowTimer (fireWithSounds allowed e sa).
Proof.
  destruct sa as [s a]. intro Inv. unfold fireWithSounds.
  destruct (bgmDepsChanged s (fire e s)) eqn:Ed.
  - apply bgmEffect_follows_timer.
  - apply bgmDeps_unchanged in Ed. destruct Ed as [Er Em].
    unfold soundsFollowTimer in *. cbn [fst snd] in *. rewrite Er, Em.
    assert (Hsilent : forall a', playing (workSound a') = false ->
                                 playing (breakSound a') = false ->
              (playing (workSound a') = true ->
               isRunning (timer s) = true /\ phase s = work)
              /\ (playing (breakSound a') = true ->
                  isRunning (timer s) = true /\ phase s = break)).
    { intros a' Hw Hb. rewrite Hw, Hb. split; discriminate. }
    destruct e; cbn [handlerSounds]; try exact Inv;
      try (apply Hsilent; apply stopAllSounds_silent).
    destruct (isRunning (timer s) && JS.leb (timeLeft (timer s)) (JS.of_Z 0));
      [apply Hsilent; apply stopAllSounds_silent | exact Inv].
Qed.

(** On the mounted page, in every state reachable by events, a loop is
    heard only while the timer runs in the phase of that loop: nothing plays
    while the timer is paused or idle, and the two loops never play
    together. *)
Theorem sounds_follow_the_running_phase :
  forall (storedTasks : option (list Task)) (storedSettings : option Settings)
         (s : AppState) (a : Sounds),
    reachableWithSounds (initialState storedTasks storedSettings) (s, a) ->
    soundsFollowTimer (s, a)
    /\ (isRunning (timer s) = false ->
        playing (workSound a) = false /\ playing (breakSound a) = false)
    /\ playing (workSound a) && playing (breakSound a) = false.
Proof.
  intros storedTasks storedSettings s a Hreach.
  assert (Inv : soundsFollowTimer (s, a)).
  { remember (s, a) as sa eqn:E. clear E.
    induction Hreach as [|sa e allowed _ IH _].
    - apply bgmEffect_follows_timer.
    - now apply soundsFollowTimer_step. }
  split; [exact Inv|].
  destruct Inv as [Hw Hb]. cbn [fst snd] in *.
  split.
  - intro Hstop.
    destruct (playing (workSound a)); [destruct (Hw eq_refl); congruence|].
    destruct (playing (breakSound a)); [destruct (Hb eq_refl); congruence|].
    split; reflexivity.
  - destruct (playing (workSound a)); [|reflexivity].
    destruct (playing (breakSound a)); [|reflexivity].
    destruct (Hw eq_refl) as [_ H1], (Hb eq_refl) as [_ H2]. congruence.
Qed.

Lemma sounds_follow_the_running_phase_witness :
  let sa := fireWithSounds true ClickPause
              (fireWithSounds true (ClickStart task1) (mounted firstLaunch)) in
  playing (workSound (snd (fireWithSounds true (ClickStart task1)
                             (mounted firstLaunch)))) = true
  /\ playing (workSound (snd sa)) = false
  /\ playing (breakSound (snd sa)) = false.
Proof.
  cbv zeta. split; [reflexivity|].
  apply (@sounds_follow_the_running_phase None None
           (fst (fireWithSounds true ClickPause
                   (fireWithSounds true (ClickStart task1) (mounted firstLaunch))))
           (snd (fireWithSounds true ClickPause
                   (fireWithSounds true (ClickStart task1) (mounted firstLaunch))))).
  - change (reachableWithSounds firstLaunch
              (fireWithSounds true ClickPause
                 (fireWithSounds true (ClickStart task1) (mounted firstLaunch)))).
    apply reachableWithSounds_step.
    + apply reachableWithSounds_step; [constructor|].
      simpl. split; [now left | discriminate].
    + simpl. discriminate.
  - reflexivity.
Defined.

(** Starting a task while the timer already runs in its work phase (the
    active task again, or another one) leaves both loops stopped although
    the timer runs on in the work phase: [startTimer] stops them, and
    neither dependency of the music effect changes, so it is not run. *)
Theorem start_during_running_work_phase_silences_music :
  forall (allowed : bool) (s : AppState) (a : Sounds) (task : Task),
    isRunning (timer s) = true ->
    currentMode (timer s) = Mode.pomodoroWork ->
    let sa' := fireWithSounds allowed (ClickStart task) (s, a) in
    isRunning (timer (fst sa')) = true
    /\ phase (fst sa') = work
    /\ playing (workSound (snd sa')) = false
    /\ playing (breakSound (snd sa')) = false.
Proof.
  intros allowed s a task Hrun Hmode. cbv zeta. unfold fireWithSounds.
  assert (Ht : timer (fire (ClickStart task) s) = freshRun (timerSettings s)).
  { unfold fire, dispatch, startTimer.
    destruct (activeTask s) as [x|];
      [destruct (negb (TaskId_eqb (id x) (id task)))|]; reflexivity. }
  assert (Ed : bgmDepsChanged s (fire (ClickStart task) s) = false).
  { unfold bgmDepsChanged. rewrite Ht, Hrun, Hmode. reflexivity. }
  rewrite Ed. cbn [fst snd handlerSounds]. unfold phase. rewrite Ht.
  repeat split; apply unlockSounds_silent.
Qed.

Lemma start_during_running_work_phase_silences_music_witness :
  let before := fireWithSounds true (ClickStart task1) (mounted firstLaunch) in
  let after := fireWithSounds true (ClickStart task2) before in
  playing (workSound (snd before)) = true
  /\ playing (workSound (snd after)) = false
  /\ isRunning (timer (fst after)) = true.
Proof.
  cbv zeta. split; [reflexivity|].
  destruct (@start_during_running_work_phase_silences_music true
              (fst (fireWithSounds true (ClickStart task1) (mounted firstLaunch)))
              (snd (fireWithSounds true (ClickStart task1) (mounted firstLaunch)))
              task2 eq_refl eq_refl) as (Hrun & _ & Hw & _).
  split; [exact Hw | exact Hrun].
Defined.

(* ================================================================== *)
(** ** Undoing                                                        *)
(* ================================================================== *)

Lemma map_status_back (taskId : TaskId) (st st' : Status) (ts : list Task) :
  (forall x, In x ts -> id x = taskId -> status x = st) ->
  map (fun task => if TaskId_eqb (id task) taskId
                   then withStatus task st else task)
      (map (fun task => if TaskId_eqb (id task) taskId
                        then withStatus task st' else task) ts) = ts.
Proof.
  intro H. rewrite map_map. rewrite <- (map_id ts) at 2.
  apply map_ext_in. intros x Hx.
  destruct (TaskId_eqb (id x) taskId) eqn:E; cbn [withStatus id]; rewrite E.
  - apply TaskId_eqb_eq in E. specialize (H x Hx E).
    destruct x; simpl in *. now subst.
  - reflexivity.
Qed.

(** Marking a task done and reverting it gives back the registry as it
    was, provided the task was [todo]; a task that was [doing] comes back as
    [todo]. No task is active afterwards in either case. *)
Theorem done_then_revert_restores_a_todo_task :
  forall (s : AppState) (T : Task),
    (forall x, In x (tasks s) -> id x = id T -> status x = todo) ->
    let s' := fire (ClickRevert (withStatus T done)) (fire (ClickDone T) s) in
    tasks s' = tasks s /\ activeTask s' = None /\ timer s' = timer s.
Proof.
  intros s T Htodo. cbv zeta.
  unfold fire, dispatch, handleUpdateStatus.
  cbn [Status_eqb flush fold_left applyUpdate tasks activeTask timer withStatus id].
  rewrite (@map_status_back _ _ _ _ Htodo). repeat split.
Qed.

Lemma done_then_revert_restores_a_todo_task_witness :
  tasks (fire (ClickRevert (withStatus task2 done)) (fire (ClickDone task2) firstLaunch))
  = tasks firstLaunch.
Proof.
  apply (@done_then_revert_restores_a_todo_task firstLaunch task2).
  intros x [<-|[<-|[<-|[]]]] H; (reflexivity || discriminate H).
Defined.

(** Starting a todo task on an idle page and pressing reset gives back the
    page as it was: the idle timer of the settings, no active task, the
    registry unchanged. *)
Theorem start_then_reset_is_identity_when_idle :
  forall (s : AppState) (T : Task),
    activeTask s = None ->
    timer s = idleTimer (timerSettings s) ->
    (forall x, In x (tasks s) -> id x = id T -> status x = todo) ->
    fire ClickReset (fire (ClickStart T) s) = s.
Proof.
  intros s T Ha Ht Htodo.
  unfold fire, dispatch, startTimer, onReset, resetTimer, handleUpdateStatus.
  rewrite Ha.
  cbn [app Status_eqb flush fold_left applyUpdate tasks activeTask timer
       timerSettings String.eqb].
  rewrite (@map_status_back _ _ _ _ Htodo), <- Ht, <- Ha.
  destruct s; reflexivity.
Qed.

Lemma start_then_reset_is_identity_when_idle_witness :
  fire ClickReset (fire (ClickStart task1) firstLaunch) = firstLaunch.
Proof.
  apply (@start_then_reset_is_identity_when_idle firstLaunch task1);
    [reflexivity | reflexivity |].
  intros x [<-|[<-|[<-|[]]]] H; (reflexivity || discriminate H).
Defined.

(** During a run the number of sessions shown as the total is the one taken
    at the start: no event but a start changes [totalSessions] as long as
    the timer does not go idle, a change of the settings included. *)
Theorem total_sessions_fixed_during_run :
  forall (e : Event) (s : AppState),
    (forall task, e <> ClickStart task) ->
    phase (fire e s) <> idle ->
    totalSessions (timer (fire e s)) = totalSessions (timer s).
Proof.
  intros e s Hns Hph. destruct e; try reflexivity.
  - now elim (Hns task).
  - (* ClickComplete *)
    unfold fire, dispatch, onComplete, resetTimer, phase in *.
    destruct (activeTask s); [|reflexivity].
    exfalso. now apply Hph.
  - (* ClickReset *)
    unfold fire, dispatch, onReset, resetTimer, phase in *.
    exfalso. apply Hph. destruct (activeTask s); reflexivity.
  - (* SubmitNewTask *)
    unfold fire, dispatch, handleAddTask. destruct (JS.trim _); reflexivity.
  - (* EffectRuns *)
    unfold fire, dispatch, timerEffect, resetTimer, phase in *.
    destruct (negb (isRunning (timer s))); [reflexivity|].
    destruct (JS.leb _ _); [|reflexivity].
    destruct (currentMode (timer s)); try reflexivity.
    destruct (JS.gtb _ _); [reflexivity|].
    exfalso. apply Hph. destruct (activeTask s); reflexivity.
Qed.

Lemma total_sessions_fixed_during_run_witness :
  let changed := {| SettingsModal.pomodoroWork := JS.Str "30";
                    SettingsModal.pomodoroBreak := JS.Str "10";
                    SettingsModal.pomodoroSessions := JS.Str "8" |} in
  totalSessions (timer (fire (SaveSettings changed) (fire (ClickStart task1) firstLaunch)))
  = JS.of_Z 4.
Proof.
  cbv zeta.
  rewrite (@total_sessions_fixed_during_run
             (SaveSettings {| SettingsModal.pomodoroWork := JS.Str "30";
                              SettingsModal.pomodoroBreak := JS.Str "10";
                              SettingsModal.pomodoroSessions := JS.Str "8" |})
             (fire (ClickStart task1) firstLaunch)).
  - reflexivity.
  - intros task H. discriminate H.
  - discriminate.
Defined.

(* ================================================================== *)
(** ** Whole numbers typed into the dialog                            *)
(* ================================================================== *)

Lemma Qred_inject_Z (z : Z) : Qred (inject_Z z) = inject_Z z.
Proof.
  unfold Qred, inject_Z.
  pose proof (Z.ggcd_gcd z 1) as Hg.
  pose proof (Z.ggcd_correct_divisors z 1) as Hd.
  destruct (Z.ggcd z 1) as [g [aa bb]]. cbn [fst snd] in *.
  rewrite Z.gcd_1_r in Hg. subst g. destruct Hd as [Ha Hb].
  rewrite Z.mul_1_l in Ha, Hb. now subst.
Qed.

Lemma dropWhiteSpace_id (two : ascii -> ascii -> bool)
                        (three : ascii -> ascii -> ascii -> bool)
                        (l : list ascii) :
  match l with
  | [] => True
  | a :: _ => JS.isStrWhiteSpaceChar a = false
              /\ (forall b, two a b = false)
              /\ (forall b c, three a b c = false)
  end ->
  JS.dropWhiteSpace two three l = l.
Proof.
  destruct l as [|a [|b [|c r]]]; simpl; [reflexivity|..];
    intros (H1 & H2 & H3); rewrite H1, ?H2, ?H3; reflexivity.
Qed.

(** A one-byte character other than white space starts no white space and
    ends none. *)
Lemma plain_char (a : ascii) :
  negb (JS.isStrWhiteSpaceChar a) && (N_of_ascii a <? 128)%N = true ->
  JS.isStrWhiteSpaceChar a = false
  /\ (forall b, JS.isWhiteSpace2 a b = false)
  /\ (forall b c, JS.isWhiteSpace3 a b c = false)
  /\ (forall b, JS.isWhiteSpace2 b a = false)
  /\ (forall b c, JS.isWhiteSpace3 c b a = false).
Proof.
  intro H. apply andb_true_iff in H. destruct H as [H1 H2].
  apply negb_true_iff in H1. apply N.ltb_lt in H2.
  split; [exact H1|].
  unfold JS.isWhiteSpace2, JS.isWhiteSpace3.
  repeat split; intros;
    repeat match goal with
           | |- context [(N_of_ascii a =? ?k)%N] =>
               replace (N_of_ascii a =? k)%N with false
                 by (symmetry; apply N.eqb_neq; lia)
           | |- context [(?k <=? N_of_ascii a)%N] =>
               replace (k <=? N_of_ascii a)%N with false
                 by (symmetry; apply N.leb_gt; lia)
           end;
    rewrite ?andb_false_r, ?andb_false_l, ?orb_false_r; reflexivity.
Qed.

Lemma trim_id (l : list ascii) :
  forallb (fun c => negb (JS.isStrWhiteSpaceChar c) && (N_of_ascii c <? 128)%N) l
  = true ->
  JS.trim l = l.
Proof.
  intro H. unfold JS.trim. rewrite forallb_forall in H.
  rewrite (@dropWhiteSpace_id JS.isWhiteSpace2 JS.isWhiteSpace3 l).
  - rewrite dropWhiteSpace_id; [apply rev_involutive|].
    destruct (rev l) as [|a r] eqn:E; [exact I|].
    assert (Ha : In a l) by (apply in_rev; rewrite E; now left).
    destruct (plain_char _ (H a Ha)) as (H1 & _ & _ & H4 & H5).
    repeat split; auto.
  - destruct l as [|a r]; [exact I|].
    destruct (plain_char _ (H a (or_introl eq_refl))) as (H1 & H2 & H3 & _).
    repeat split; auto.
Qed.

Lemma uint_chars_not_space (u : Decimal.uint) :
  forallb (fun c => negb (JS.isStrWhiteSpaceChar c) && (N_of_ascii c <? 128)%N)
          (list_ascii_of_string (NilEmpty.string_of_uint u)) = true.
Proof. induction u; simpl; [reflexivity|..]; exact IHu. Qed.

Lemma uint_head_char (u : Decimal.uint) (c : ascii) (r : list ascii) :
  list_ascii_of_string (NilEmpty.string_of_uint u) = c :: r ->
  JS.isChar c "+" = false /\ JS.isChar c "-" = false
  /\ Ascii.eqb c "I" = false.
Proof.
  destruct u; simpl; intro H; try discriminate H;
    injection H as <- _; repeat split.
Qed.

Lemma uint_not_nonDecimal (u : Decimal.uint) :
  JS.parseNonDecimal (list_ascii_of_string (NilEmpty.string_of_uint u)) = None.
Proof.
  destruct u as [|u|u|u|u|u|u|u|u|u|u]; try reflexivity;
    destruct u; reflexivity.
Qed.

Lemma digits_of_uint (u : Decimal.uint) :
  exists ds,
    JS.digits 10 (list_ascii_of_string (NilEmpty.string_of_uint u)) = (ds, [])
    /\ (forall acc, fold_left (fun a d => (a * 10 + d)%Z) ds (Zpos acc)
                    = Zpos (Pos.of_uint_acc u acc))
    /\ fold_left (fun a d => (a * 10 + d)%Z) ds 0%Z = Z.of_N (Pos.of_uint u)
    /\ (u <> Decimal.Nil -> ds <> []).
Proof.
  induction u as [|u IH|u IH|u IH|u IH|u IH|u IH|u IH|u IH|u IH|u IH];
    [exists []; repeat split; congruence|..];
    destruct IH as (ds & Hd & Hacc & H0 & _);
    cbn [NilEmpty.string_of_uint list_ascii_of_string JS.digits];
    match goal with
    | |- context [JS.digitOf 10 ?c] =>
        let v := eval cbv in (JS.digitOf 10 c) in
        change (JS.digitOf 10 c) with v
    end;
    rewrite Hd;
    match goal with
    | |- exists ds', (?d :: ds, []) = (ds', []) /\ _ => exists (d :: ds)
    end;
    (split; [reflexivity|]); cbn [fold_left Pos.of_uint_acc Pos.of_uint];
    (split; [|split; [|discriminate]]).
  all: try (intro acc; rewrite <- Hacc; f_equal; lia).
  all: try exact H0.
  all: exact (Hacc _).
Qed.

Lemma Number_of_digits (u : Decimal.uint) :
  u <> Decimal.Nil ->
  JS.StringToNumber (NilEmpty.string_of_uint u) = JS.of_Z (Z.of_uint u).
Proof.
  intro Hu. unfold JS.StringToNumber.
  rewrite (trim_id _ (uint_chars_not_space u)).
  pose proof (uint_not_nonDecimal u) as HND.
  pose proof (@uint_head_char u) as Hhead.
  destruct (digits_of_uint u) as (ds & Hd & _ & H0 & Hne).
  specialize (Hne Hu).
  destruct (list_ascii_of_string (NilEmpty.string_of_uint u)) as [|c r] eqn:El.
  - simpl in Hd. injection Hd as <-. contradiction.
  - destruct (Hhead c r eq_refl) as (Hplus & Hminus & HI).
    rewrite HND. unfold JS.parseDecimal. rewrite Hplus, Hminus.
    unfold JS.parseUnsignedDecimal.
    cbn [string_of_list_ascii String.eqb]. rewrite HI. cbn [andb].
    rewrite Hd.
    destruct ds as [|d ds']; [contradiction|].
    cbn [JS.parseExponent List.length Z.of_nat].
    unfold JS.valueOf at 1. rewrite H0.
    unfold JS.of_Z, Z.of_uint. f_equal.
    transitivity (Qred (inject_Z (Z.of_N (Pos.of_uint u))));
      [apply Qred_complete | apply Qred_inject_Z].
    unfold JS.valueOf. cbn [fold_left]. 
    change (10 ^ 0)%Z with 1%Z. change (Qpower 10 0) with 1%Q.
    unfold Qeq, Qmult, Qplus, Qdiv, Qinv, inject_Z. simpl. ring.
Qed.

(** A whole number typed as its decimal digits converts to that number,
    and from 1 upwards it is saved as typed. The bound keeps to the integers
    that a JavaScript number holds exactly. *)
Theorem whole_number_typed_is_saved :
  forall (z : Z),
    (0 <= z <= 2 ^ 53)%Z ->
    JS.Number (JS.Str (String_of_Z z)) = JS.of_Z z
    /\ ((1 <= z)%Z ->
        JS.Math_max (JS.of_Z 1) (JS.Number (JS.Str (String_of_Z z))) = JS.of_Z z).
Proof.
  intros z [Hz _].
  assert (H : JS.Number (JS.Str (String_of_Z z)) = JS.of_Z z).
  { destruct z as [|p|p]; [reflexivity| |lia].
    unfold String_of_Z. cbn [Z.to_int NilZero.string_of_int JS.Number].
    pose proof (DecimalPos.Unsigned.to_uint_nonnil p) as Hn.
    replace (NilZero.string_of_uint (Pos.to_uint p))
      with (NilEmpty.string_of_uint (Pos.to_uint p))
      by (now destruct (Pos.to_uint p)).
    rewrite (Number_of_digits Hn). unfold Z.of_uint.
    now rewrite DecimalPos.Unsigned.of_to. }
  split; [exact H|]. intro H1. rewrite H.
  unfold JS.Math_max, JS.of_Z. cbn [JS.ltb].
  change (Qle_bool (inject_Z z) (inject_Z 1))
    with (JS.leb (JS.of_Z z) (JS.of_Z 1)).
  rewrite leb_of_Z. destruct (z <=? 1)%Z eqn:E; [|reflexivity].
  apply Z.leb_le in E. cbn [negb]. f_equal. f_equal. lia.
Qed.

Lemma whole_number_typed_is_saved_witness :
  String_of_Z 45 = "45"
  /\ pomodoroWork (SettingsModal.savedSettings
                     {| SettingsModal.pomodoroWork := JS.Str (String_of_Z 45);
                        SettingsModal.pomodoroBreak := JS.Str "5";
                        SettingsModal.pomodoroSessions := JS.Str "4" |})
     = JS.of_Z 45.
Proof.
  split; [reflexivity|].
  destruct (@whole_number_typed_is_saved 45%Z ltac:(lia)) as [_ H].
  apply H. lia.
Defined.

(* ================================================================== *)
(** ** Complete, reset and the single doing task                      *)
(* ================================================================== *)

Lemma map_status_twice (taskId : TaskId) (st st' : Status) (ts : list Task) :
  map (fun task => if TaskId_eqb (id task) taskId
                   then withStatus task st else task)
      (map (fun task => if TaskId_eqb (id task) taskId
                        then withStatus task st' else task) ts)
  = map (fun task => if TaskId_eqb (id task) taskId
                     then withStatus task st else task) ts.
Proof.
  rewrite map_map. apply map_ext. intro x.
  destruct (TaskId_eqb (id x) taskId) eqn:E; cbn [withStatus id]; now rewrite E.
Qed.

(** On every page the complete button does exactly what the reset button
    does: the update to [done] that it queues first is overwritten by the
    revert to [todo] that [resetTimer] queues after it (see C1). *)
Theorem complete_button_acts_as_reset :
  forall (s : AppState),
    activeTask s <> None ->
    fire ClickComplete s = fire ClickReset s.
Proof.
  intros s Ha. unfold fire, dispatch, onComplete, onReset, resetTimer,
    handleUpdateStatus.
  destruct (activeTask s) as [a|]; [|contradiction].
  cbn [app Status_eqb flush fold_left applyUpdate tasks activeTask timer
       timerSettings].
  now rewrite map_status_twice.
Qed.

Lemma complete_button_acts_as_reset_witness :
  fire ClickComplete (fire (ClickStart task1) firstLaunch)
  = fire ClickReset (fire (ClickStart task1) firstLaunch).
Proof.
  apply (@complete_button_acts_as_reset (fire (ClickStart task1) firstLaunch)).
  discriminate.
Defined.

(** As long as the status buttons of the list are not pressed on a task
    beside the active one, every event keeps this: a task with status
    [doing] is the active task. [startTimer] demotes the task it replaces,
    and complete, reset and the end of a cycle leave no task [doing]. *)
Theorem only_the_active_task_is_doing :
  forall (e : Event) (s : AppState),
    onlyActiveTaskDoing s ->
    enabled e s ->
    ~ statusClickBesideActive e s ->
    onlyActiveTaskDoing (fire e s).
Proof.
  intros e s Inv Hen Hbeside x Hx Hst.
  assert (Hnone : activeTask s = None ->
                  forall y, In y (tasks s) -> status y <> doing).
  { intros Hn y Hy Hd. destruct (Inv y Hy Hd) as (a & Ha & _). congruence. }
  destruct e; simpl in Hen.
  - (* ClickStart *)
    unfold fire, dispatch, startTimer, handleUpdateStatus in *.
    destruct (activeTask s) as [a|] eqn:Ea.
    + destruct (TaskId_eqb (id a) (id task)) eqn:Eid;
        cbn [negb app Status_eqb flush fold_left applyUpdate tasks activeTask]
          in Hx |- *; exists task; (split; [reflexivity|]).
      * apply in_map_iff in Hx. destruct Hx as (y & <- & Hy).
        destruct (TaskId_eqb (id y) (id task)) eqn:E;
          [now apply TaskId_eqb_eq in E|].
        destruct (Inv y Hy Hst) as (a' & Ha' & Hid). rewrite Ea in Ha'; injection Ha' as <-.
        apply TaskId_eqb_eq in Eid. congruence.
      * apply in_map_iff in Hx. destruct Hx as (y & <- & Hy).
        destruct (TaskId_eqb (id y) (id task)) eqn:E;
          [now apply TaskId_eqb_eq in E|].
        apply in_map_iff in Hy. destruct Hy as (z & <- & Hz). exfalso.
        destruct (TaskId_eqb (id z) (id a)) eqn:Ez; [discriminate Hst|].
        destruct (Inv z Hz Hst) as (a' & Ha' & Hid). rewrite Ea in Ha'; injection Ha' as <-.
        apply TaskId_eqb_neq in Ez. contradiction.
    + cbn [app Status_eqb flush fold_left applyUpdate tasks activeTask]
        in Hx |- *. exists task. split; [reflexivity|].
      apply in_map_iff in Hx. destruct Hx as (y & <- & Hy).
      destruct (TaskId_eqb (id y) (id task)) eqn:E;
        [now apply TaskId_eqb_eq in E|].
      exfalso. exact (Hnone eq_refl y Hy Hst).
  - (* ClickDone *)
    exfalso. unfold fire, dispatch, handleUpdateStatus in Hx.
    cbn [Status_eqb flush fold_left applyUpdate tasks] in Hx.
    apply in_map_iff in Hx. destruct Hx as (y & <- & Hy).
    destruct (TaskId_eqb (id y) (id task)) eqn:E; [discriminate Hst|].
    destruct (Inv y Hy Hst) as (a & Ha & Hid).
    apply Hbeside. exists task, a. split; [now left|]. split; [exact Ha|].
    apply TaskId_eqb_neq in E. congruence.
  - (* ClickRevert *)
    exfalso. unfold fire, dispatch, handleUpdateStatus in Hx.
    cbn [Status_eqb flush fold_left applyUpdate tasks] in Hx.
    apply in_map_iff in Hx. destruct Hx as (y & <- & Hy).
    destruct (TaskId_eqb (id y) (id task)) eqn:E; [discriminate Hst|].
    destruct (Inv y Hy Hst) as (a & Ha & Hid).
    apply Hbeside. exists task, a. split; [now right|]. split; [exact Ha|].
    apply TaskId_eqb_neq in E. congruence.
  - (* ClickDelete *)
    unfold fire, dispatch, handleDeleteTask in *.
    cbn [flush fold_left applyUpdate tasks activeTask] in Hx |- *.
    apply filter_In in Hx. now apply Inv.
  - (* ClickPause *) now apply Inv.
  - (* ClickComplete *)
    exfalso. unfold fire, dispatch, onComplete, resetTimer, handleUpdateStatus in Hx.
    destruct (activeTask s) as [a|] eqn:Ea; [|contradiction].
    cbn [app Status_eqb flush fold_left applyUpdate tasks] in Hx.
    rewrite map_status_twice in Hx.
    apply in_map_iff in Hx. destruct Hx as (y & <- & Hy).
    destruct (TaskId_eqb (id y) (id a)) eqn:E; [discriminate Hst|].
    destruct (Inv y Hy Hst) as (a' & Ha' & Hid). rewrite Ea in Ha'; injection Ha' as <-.
    apply TaskId_eqb_neq in E. contradiction.
  - (* ClickReset *)
    exfalso. unfold fire, dispatch, onReset, resetTimer in Hx.
    destruct (activeTask s) as [a|] eqn:Ea; [|contradiction].
    cbn [app flush fold_left applyUpdate tasks] in Hx.
    apply in_map_iff in Hx. destruct Hx as (y & <- & Hy).
    destruct (TaskId_eqb (id y) (id a)) eqn:E; [discriminate Hst|].
    destruct (Inv y Hy Hst) as (a' & Ha' & Hid). rewrite Ea in Ha'; injection Ha' as <-.
    apply TaskId_eqb_neq in E. contradiction.
  - (* SubmitNewTask *)
    unfold fire, dispatch, handleAddTask in *.
    destruct (JS.trim _); [now apply Inv|].
    cbn [flush fold_left applyUpdate tasks activeTask] in Hx |- *.
    apply in_app_or in Hx. destruct Hx as [Hx|[<-|[]]]; [now apply Inv|].
    discriminate Hst.
  - (* DragStop *)
    unfold fire, dispatch, handleUpdatePosition in *.
    cbn [flush fold_left applyUpdate tasks activeTask] in Hx |- *.
    apply in_map_iff in Hx. destruct Hx as (y & <- & Hy).
    destruct (TaskId_eqb (id y) (id task)); cbn [withPosition status id] in *;
      now apply Inv.
  - (* SaveSettings *) now apply Inv.
  - (* IntervalFires *) now apply Inv.
  - (* EffectRuns *)
    unfold fire, dispatch, timerEffect, resetTimer, handleUpdateStatus in *.
    destruct (negb (isRunning (timer s))); [now apply Inv|].
    destruct (JS.leb _ _); [|now apply Inv].
    destruct (currentMode (timer s)); try (now apply Inv).
    destruct (JS.gtb _ _); [now apply Inv|].
    destruct (activeTask s) as [a|] eqn:Ea.
    + exfalso.
      cbn [app Status_eqb flush fold_left applyUpdate tasks] in Hx.
      rewrite map_status_twice in Hx.
      apply in_map_iff in Hx. destruct Hx as (y & <- & Hy).
      destruct (TaskId_eqb (id y) (id a)) eqn:E; [discriminate Hst|].
      destruct (Inv y Hy Hst) as (a' & Ha' & Hid). rewrite Ea in Ha'; injection Ha' as <-.
      apply TaskId_eqb_neq in E. contradiction.
    + exfalso. exact (Hnone eq_refl x Hx Hst).
Qed.

Lemma only_the_active_task_is_doing_witness :
  onlyActiveTaskDoing (fire (ClickStart task2) (fire (ClickStart task1) firstLaunch)).
Proof.
  apply only_the_active_task_is_doing.
  - apply only_the_active_task_is_doing.
    + intros x [<-|[<-|[<-|[]]]] H; discriminate H.
    + simpl. split; [now left | discriminate].
    + intros (T & a & [H|H] & _); discriminate H.
  - simpl. split; [right; now left | discriminate].
  - intros (T & a & [H|H] & _); discriminate H.
Defined.
